(** * dvd-screen-saver: a bouncing rectangle on a canvas

    Shallow embedding of [src/main.ts] and the properties of its update /
    render loop.

    Numbers.  Every number the program handles is an integer:
    [window.innerWidth] and [window.innerHeight] are integers, the rectangle
    is 128 x 72, the speed is 2 and the directions are -1 / +1.  JavaScript
    computes with them exactly (they stay far below 2^53), so coordinates
    and the colour counter are values of [Z].  The only division,
    [CANVAS_WIDTH / 2 - RECT_WIDTH / 2], is taken in [Q] and rounded with
    [Qfloor], as [Math.floor] does.

    Objects.  A method that may mutate [this] is a function from the
    object's state to its new state.  The canvas context is a record of its
    current fill style and of the drawing calls issued so far; what is seen
    on the screen is computed from those calls by [visible].  The mounting
    element mutated by [Application.create] is threaded through a small
    state-and-exception monad. *)

From Stdlib Require Import ZArith QArith Qround List String Bool Lia.
Import ListNotations.

#[local] Open Scope string_scope.
#[local] Open Scope list_scope.
#[local] Open Scope Z_scope.

(* ===================================================================== *)
(** ** The browser: window, canvas context, DOM                          *)
(* ===================================================================== *)

Record Window := { innerWidth : Z; innerHeight : Z }.

(** One call on a [CanvasRenderingContext2D].  [FillRect] records the fill
    style that was current when the rectangle was painted. *)
Inductive draw_call :=
| BeginPath
| FillRect (style : string) (x y w h : Z)
| ClearRect (x y w h : Z).

Record RenderContext := {
  fillStyle : string;
  calls : list draw_call
}.

Definition issue (c : draw_call) (context : RenderContext) : RenderContext :=
  {| fillStyle := fillStyle context; calls := calls context ++ [c] |}.

Definition beginPath (context : RenderContext) : RenderContext :=
  issue BeginPath context.

(** [context.fillStyle = v].  [None] is JavaScript's [undefined]: it is not
    a colour, and the canvas ignores the assignment.  A string is stored;
    the strings of this program are CSS colour keywords. *)
Definition set_fillStyle (v : option string) (context : RenderContext) : RenderContext :=
  match v with
  | Some c => {| fillStyle := c; calls := calls context |}
  | None => context
  end.

Definition fillRect (x y w h : Z) (context : RenderContext) : RenderContext :=
  issue (FillRect (fillStyle context) x y w h) context.

Definition clearRect (x y w h : Z) (context : RenderContext) : RenderContext :=
  issue (ClearRect x y w h) context.

(** The pixel [(px, py)] lies in the rectangle with corners [(x, y)] and
    [(x + w, y + h)]. *)
Definition covers (x y w h px py : Z) : bool :=
  (Z.min x (x + w) <=? px) && (px <? Z.max x (x + w)) &&
  (Z.min y (y + h) <=? py) && (py <? Z.max y (y + h)).

(** Effect of one call on one pixel; [None] is a transparent pixel. *)
Definition paint (px py : Z) (pixel : option string) (c : draw_call) : option string :=
  match c with
  | BeginPath => pixel
  | FillRect style x y w h => if covers x y w h px py then Some style else pixel
  | ClearRect x y w h => if covers x y w h px py then None else pixel
  end.

(** What the canvas of the given size shows at a pixel after the calls. *)
Definition visible (window : Window) (context : RenderContext) (px py : Z) : option string :=
  if covers 0 0 (innerWidth window) (innerHeight window) px py
  then fold_left (paint px py) (calls context) None
  else None.

Record HTMLCanvasElement := {
  width : Z;
  height : Z;
  style : string
}.

Inductive Node :=
| CanvasNode (canvas : HTMLCanvasElement)
| OtherNode (tag : string).

Record Element := { childNodes : list Node }.

(** A thrown [Error] object. *)
Record js_error := { name : string; message : string }.

Definition Error (msg : string) : js_error :=
  {| name := "Error"; message := msg |}.

(** Code that runs on the mounting element: it may mutate the element and
    either returns or throws. *)
Definition DOM (A : Type) : Type := Element -> Element * (js_error + A).

Definition ret {A} (a : A) : DOM A := fun root => (root, inr a).

Definition throw {A} (e : js_error) : DOM A := fun root => (root, inl e).

Definition bind {A B} (m : DOM A) (k : A -> DOM B) : DOM B :=
  fun root =>
    match m root with
    | (root', inr a) => k a root'
    | (root', inl e) => (root', inl e)
    end.

Notation "m ;;; k" := (bind m (fun _ => k))
  (at level 61, right associativity).

Definition appendChild (canvas : HTMLCanvasElement) : DOM unit :=
  fun root => ({| childNodes := childNodes root ++ [CanvasNode canvas] |}, inr tt).

(** [a[i]] on a JavaScript array: [None] is [undefined]. *)
Definition array_get {A} (a : list A) (i : Z) : option A :=
  if i <? 0 then None else nth_error a (Z.to_nat i).

(* ===================================================================== *)
(** ** Constants                                                         *)
(* ===================================================================== *)

Module Sizes.

Definition CANVAS_WIDTH (window : Window) : Z := innerWidth window.
Definition CANVAS_HEIGHT (window : Window) : Z := innerHeight window.
Definition RECT_WIDTH : Z := 128.
Definition RECT_HEIGHT : Z := 72.

Definition rectCenterX (window : Window) : Z :=
  Qfloor (inject_Z (CANVAS_WIDTH window) / 2 - inject_Z RECT_WIDTH / 2)%Q.

Definition rectCenterY (window : Window) : Z :=
  Qfloor (inject_Z (CANVAS_HEIGHT window) / 2 - inject_Z RECT_HEIGHT / 2)%Q.

End Sizes.

Module Directions.
Definition UP : Z := -1.
Definition DOWN : Z := 1.
Definition LEFT : Z := -1.
Definition RIGHT : Z := 1.
End Directions.

Definition colors : list string :=
  ["red"; "green"; "blue"; "yellow"; "pink"; "magenta"; "orange"; "white"].

(* ===================================================================== *)
(** ** The Entity interface                                              *)
(* ===================================================================== *)

(** [setup] and [update] may mutate the entity; [render] is handed the
    context and may mutate both. *)
Module Entity.

Class t (E : Type) := {
  setup : E -> E;
  update : E -> E;
  render : RenderContext -> E -> E * RenderContext
}.

End Entity.

(* ===================================================================== *)
(** ** FlyingRectangle                                                   *)
(* ===================================================================== *)

Module FlyingRectangle.

Record t := {
  colorIndex : Z;
  color : option string;
  speed : Z;
  x : Z;
  y : Z;
  xDir : Z;
  yDir : Z
}.

Definition set_xDir (d : Z) (this : t) : t :=
  {| colorIndex := colorIndex this; color := color this; speed := speed this;
     x := x this; y := y this; xDir := d; yDir := yDir this |}.

Definition set_yDir (d : Z) (this : t) : t :=
  {| colorIndex := colorIndex this; color := color this; speed := speed this;
     x := x this; y := y this; xDir := xDir this; yDir := d |}.

Definition set_x (v : Z) (this : t) : t :=
  {| colorIndex := colorIndex this; color := color this; speed := speed this;
     x := v; y := y this; xDir := xDir this; yDir := yDir this |}.

Definition set_y (v : Z) (this : t) : t :=
  {| colorIndex := colorIndex this; color := color this; speed := speed this;
     x := x this; y := v; xDir := xDir this; yDir := yDir this |}.

(** [this.colorIndex += 1; this.color = colors[this.colorIndex % colors.length]];
    [%] is the remainder that takes the sign of the dividend. *)
Definition updateColor (this : t) : t :=
  let i := colorIndex this + 1 in
  {| colorIndex := i;
     color := array_get colors (Z.rem i (Z.of_nat (List.length colors)));
     speed := speed this; x := x this; y := y this;
     xDir := xDir this; yDir := yDir this |}.

Section WithWindow.

Variable window : Window.

(** Field initialisers of the class. *)
Definition new : t :=
  {| colorIndex := 0;
     color := array_get colors 0;
     speed := 2;
     x := Sizes.rectCenterX window;
     y := Sizes.rectCenterY window;
     xDir := 1;
     yDir := 1 |}.

Definition setup (this : t) : t := this.

(** The four tests of [update], in the order of the source, and the
    move that ends it. *)
Definition collideRight (this : t) : t :=
  if x this + Sizes.RECT_WIDTH >=? Sizes.CANVAS_WIDTH window
  then updateColor (set_xDir Directions.LEFT this) else this.

Definition collideLeft (this : t) : t :=
  if x this <=? 0
  then updateColor (set_xDir Directions.RIGHT this) else this.

Definition collideBottom (this : t) : t :=
  if y this + Sizes.RECT_HEIGHT >=? Sizes.CANVAS_HEIGHT window
  then updateColor (set_yDir Directions.UP this) else this.

Definition collideTop (this : t) : t :=
  if y this <=? 0
  then updateColor (set_yDir Directions.DOWN this) else this.

Definition move (this : t) : t :=
  let this := set_x (x this + xDir this * speed this) this in
  set_y (y this + yDir this * speed this) this.

Definition update (this : t) : t :=
  move (collideTop (collideBottom (collideLeft (collideRight this)))).

Definition render (context : RenderContext) (this : t) : t * RenderContext :=
  let context := beginPath context in
  let context := set_fillStyle (color this) context in
  let context := fillRect (x this) (y this) Sizes.RECT_WIDTH Sizes.RECT_HEIGHT context in
  (this, context).

Definition entity : Entity.t t :=
  {| Entity.setup := setup; Entity.update := update; Entity.render := render |}.

End WithWindow.

End FlyingRectangle.

(* ===================================================================== *)
(** ** Application                                                       *)
(* ===================================================================== *)

(** [entities.forEach((it) => it.render(context))]: the entities in order,
    each one handed the context the previous one left. *)
Fixpoint forEach_render {E} `{Entity.t E} (context : RenderContext) (entities : list E)
  : list E * RenderContext :=
  match entities with
  | [] => ([], context)
  | it :: rest =>
      let (it', context') := Entity.render context it in
      let (rest', context'') := forEach_render context' rest in
      (it' :: rest', context'')
  end.

Module Application.

Record t := {
  entities : list FlyingRectangle.t;
  context : RenderContext
}.

Definition new (context : RenderContext) : t :=
  {| entities := []; context := context |}.

Section WithBrowser.

Variable window : Window.

(** [canvas.getContext('2d')]: [None] is [null]. *)
Variable getContext : HTMLCanvasElement -> option RenderContext.

#[local] Instance rect_entity : Entity.t FlyingRectangle.t :=
  FlyingRectangle.entity window.

Definition setup (this : t) : t :=
  {| entities := entities this ++ [FlyingRectangle.new window];
     context := context this |}.

Definition update (this : t) : t :=
  {| entities := map Entity.update (entities this);
     context := context this |}.

Definition clear (this : t) : t :=
  {| entities := entities this;
     context := clearRect 0 0 (Sizes.CANVAS_WIDTH window) (Sizes.CANVAS_HEIGHT window)
                  (context this) |}.

Definition render (this : t) : t :=
  let this := clear this in
  let (entities', context') := forEach_render (context this) (entities this) in
  {| entities := entities'; context := context' |}.

(** [run] never returns; [run frames] is the state after [setup] and
    that many turns of its loop. *)
Definition frame (this : t) : t := render (update this).

Definition run (frames : nat) (this : t) : t :=
  Nat.iter frames frame (setup this).

(** The canvas element [create] builds: created, then sized and styled. *)
Definition canvas : HTMLCanvasElement :=
  {| width := Sizes.CANVAS_WIDTH window;
     height := Sizes.CANVAS_HEIGHT window;
     style := "background: #000" |}.

Definition create : DOM t :=
  appendChild canvas ;;;
  match getContext canvas with
  | None => throw (Error "Failed to retrieve rendering context")
  | Some renderingContext => ret (new renderingContext)
  end.

End WithBrowser.

End Application.

(** The script: [document] is what [document.querySelector('div#root')]
    finds.  [startup] is the script up to the constructed application,
    [main frames] lets [run] turn that many times. *)
Definition startup (window : Window)
    (getContext : HTMLCanvasElement -> option RenderContext)
    (document : option Element)
  : option Element * (js_error + Application.t) :=
  match document with
  | None => (None, inl (Error "Root element is missing"))
  | Some root =>
      let (root', result) := Application.create window getContext root in
      (Some root', result)
  end.

Definition main (window : Window)
    (getContext : HTMLCanvasElement -> option RenderContext)
    (frames : nat) (document : option Element)
  : option Element * (js_error + Application.t) :=
  match startup window getContext document with
  | (document', inr app) => (document', inr (Application.run window frames app))
  | (document', inl e) => (document', inl e)
  end.


(* ===================================================================== *)
(** ** Concrete windows and states used in the examples below             *)
(* ===================================================================== *)

Definition window_1000 : Window := {| innerWidth := 1000; innerHeight := 800 |}.

(** A window narrower and lower than the rectangle. *)
Definition window_100 : Window := {| innerWidth := 100; innerHeight := 50 |}.

(** A window exactly as wide as the rectangle. *)
Definition window_128 : Window := {| innerWidth := 128; innerHeight := 500 |}.

Definition rect_at (x y xDir yDir : Z) : FlyingRectangle.t :=
  {| FlyingRectangle.colorIndex := 0;
     FlyingRectangle.color := Some "red";
     FlyingRectangle.speed := 2;
     FlyingRectangle.x := x;
     FlyingRectangle.y := y;
     FlyingRectangle.xDir := xDir;
     FlyingRectangle.yDir := yDir |}.

(** The x-axis and y-axis tests of [update], as conditions on a state. *)
Definition atRight (window : Window) (r : FlyingRectangle.t) : Prop :=
  FlyingRectangle.x r + Sizes.RECT_WIDTH >= Sizes.CANVAS_WIDTH window.

Definition atLeft (r : FlyingRectangle.t) : Prop :=
  FlyingRectangle.x r <= 0.

Definition atBottom (window : Window) (r : FlyingRectangle.t) : Prop :=
  FlyingRectangle.y r + Sizes.RECT_HEIGHT >= Sizes.CANVAS_HEIGHT window.

Definition atTop (r : FlyingRectangle.t) : Prop :=
  FlyingRectangle.y r <= 0.

(** Number of colour advances of one [update]: one for each of the four
    tests that holds on entry. *)
Definition advances (window : Window) (r : FlyingRectangle.t) : Z :=
  (if FlyingRectangle.x r + Sizes.RECT_WIDTH >=? Sizes.CANVAS_WIDTH window then 1 else 0) +
  (if FlyingRectangle.x r <=? 0 then 1 else 0) +
  (if FlyingRectangle.y r + Sizes.RECT_HEIGHT >=? Sizes.CANVAS_HEIGHT window then 1 else 0) +
  (if FlyingRectangle.y r <=? 0 then 1 else 0).

(** The directions one [update] leaves, by the position on entry: the left
    test comes after the right one, the top test after the bottom one. *)
Definition xDir_after (window : Window) (r : FlyingRectangle.t) : Z :=
  if FlyingRectangle.x r <=? 0 then Directions.RIGHT
  else if FlyingRectangle.x r + Sizes.RECT_WIDTH >=? Sizes.CANVAS_WIDTH window
       then Directions.LEFT
       else FlyingRectangle.xDir r.

Definition yDir_after (window : Window) (r : FlyingRectangle.t) : Z :=
  if FlyingRectangle.y r <=? 0 then Directions.DOWN
  else if FlyingRectangle.y r + Sizes.RECT_HEIGHT >=? Sizes.CANVAS_HEIGHT window
       then Directions.UP
       else FlyingRectangle.yDir r.

(** The colour after [k] advances. *)
Definition color_after (r : FlyingRectangle.t) (k : Z) : option string :=
  if k =? 0 then FlyingRectangle.color r
  else array_get colors
         (Z.rem (FlyingRectangle.colorIndex r + k) (Z.of_nat (List.length colors))).

(** The position invariant of the specification: on entry to [update] the
    position is within [-speed, surface dimension] on each axis and both
    directions are -1 or +1. *)
Definition in_bounds (window : Window) (r : FlyingRectangle.t) : Prop :=
  - FlyingRectangle.speed r <= FlyingRectangle.x r <= Sizes.CANVAS_WIDTH window /\
  - FlyingRectangle.speed r <= FlyingRectangle.y r <= Sizes.CANVAS_HEIGHT window /\
  (FlyingRectangle.xDir r = -1 \/ FlyingRectangle.xDir r = 1) /\
  (FlyingRectangle.yDir r = -1 \/ FlyingRectangle.yDir r = 1).

(** The state on entry to the [n]-th call of [update] after construction. *)
Definition after_updates (window : Window) (n : nat) : FlyingRectangle.t :=
  Nat.iter n (FlyingRectangle.update window) (FlyingRectangle.new window).

(** The states a rectangle can be brought to from the constructed one by
    any sequence of calls of its methods. *)
Inductive reachable (window : Window) : FlyingRectangle.t -> Prop :=
| reach_new :
    reachable window (FlyingRectangle.new window)
| reach_setup r :
    reachable window r -> reachable window (FlyingRectangle.setup r)
| reach_update r :
    reachable window r -> reachable window (FlyingRectangle.update window r)
| reach_updateColor r :
    reachable window r -> reachable window (FlyingRectangle.updateColor r)
| reach_render r context :
    reachable window r -> reachable window (fst (FlyingRectangle.render context r)).

(** The colour field shows the palette entry of the counter. *)
Definition color_ok (r : FlyingRectangle.t) : Prop :=
  0 <= FlyingRectangle.colorIndex r /\
  FlyingRectangle.color r = array_get colors (FlyingRectangle.colorIndex r mod 8).

(** The error as the specification words it. *)
Definition SetupError (msg : string) : js_error :=
  {| name := "SetupError"; message := msg |}.

(** A browser without a 2D context, and one that hands out a fresh one. *)
Definition no_context (canvas : HTMLCanvasElement) : option RenderContext := None.

Definition blank_context : RenderContext :=
  {| fillStyle := "#000000"; calls := [] |}.

Definition fresh_context (canvas : HTMLCanvasElement) : option RenderContext :=
  Some blank_context.

Definition empty_root : Element := {| childNodes := [] |}.

(** The calls the entities issue when rendered in order, the first one
    finding the given fill style: each begins a path and fills its
    rectangle, with its colour if it has one. *)
Fixpoint drawn_calls (style : string) (entities : list FlyingRectangle.t) : list draw_call :=
  match entities with
  | [] => []
  | r :: rest =>
      let style' := match FlyingRectangle.color r with Some c => c | None => style end in
      BeginPath
        :: FillRect style' (FlyingRectangle.x r) (FlyingRectangle.y r)
             Sizes.RECT_WIDTH Sizes.RECT_HEIGHT
        :: drawn_calls style' rest
  end.

(** The colour of the rectangle is an entry of the palette. *)
Definition palette_colored (r : FlyingRectangle.t) : Prop :=
  In (FlyingRectangle.color r) (map Some colors).

Definition two_rectangles : Application.t :=
  {| Application.entities := [rect_at 10 20 1 1; rect_at 100 60 (-1) 1];
     Application.context := blank_context |}.

(** The delayed bounce of the boundary example: the first [update] moves
    right by 2 and flips nothing, the second one flips the x-direction to
    LEFT and advances the colour counter by 1, the third one moves left
    by 2. *)
Definition bounces_on_second_update (window : Window) (r : FlyingRectangle.t) : Prop :=
  let r1 := FlyingRectangle.update window r in
  let r2 := FlyingRectangle.update window r1 in
  let r3 := FlyingRectangle.update window r2 in
  FlyingRectangle.x r1 = FlyingRectangle.x r + 2 /\
  FlyingRectangle.xDir r1 = FlyingRectangle.xDir r /\
  FlyingRectangle.colorIndex r1 = FlyingRectangle.colorIndex r /\
  FlyingRectangle.xDir r2 = Directions.LEFT /\
  FlyingRectangle.colorIndex r2 = FlyingRectangle.colorIndex r1 + 1 /\
  FlyingRectangle.x r3 = FlyingRectangle.x r2 - 2.

(** The smallest window in which the rectangle has room to move by 2 on
    both axes. *)
Definition window_130 : Window := {| innerWidth := 130; innerHeight := 74 |}.

(** A window as wide as [window_1000] but lower. *)
Definition window_1000_600 : Window := {| innerWidth := 1000; innerHeight := 600 |}.

(** One of the four tests of [update] holds on entry. *)
Definition atEdge (window : Window) (r : FlyingRectangle.t) : Prop :=
  atRight window r \/ atLeft r \/ atBottom window r \/ atTop r.

(** The rectangle sticks out of the surface by at most one pixel. *)
Definition near_surface (window : Window) (r : FlyingRectangle.t) : Prop :=
  -1 <= FlyingRectangle.x r /\
  FlyingRectangle.x r + Sizes.RECT_WIDTH <= Sizes.CANVAS_WIDTH window + 1 /\
  -1 <= FlyingRectangle.y r /\
  FlyingRectangle.y r + Sizes.RECT_HEIGHT <= Sizes.CANVAS_HEIGHT window + 1.

(** The rectangle lies within the surface. *)
Definition inside_surface (window : Window) (r : FlyingRectangle.t) : Prop :=
  0 <= FlyingRectangle.x r /\
  FlyingRectangle.x r + Sizes.RECT_WIDTH <= Sizes.CANVAS_WIDTH window /\
  0 <= FlyingRectangle.y r /\
  FlyingRectangle.y r + Sizes.RECT_HEIGHT <= Sizes.CANVAS_HEIGHT window.

(** The number of [update] calls after which the constructed rectangle
    first touches the right edge: half the way from its position to
    [CANVAS_WIDTH - RECT_WIDTH], rounded up. *)
Definition first_right_bounce (window : Window) : nat :=
  Z.to_nat ((Sizes.CANVAS_WIDTH window - Sizes.RECT_WIDTH
             - Sizes.rectCenterX window + 1) / 2).

(** What a pixel shows once the entities are drawn in order over [below]:
    each rectangle that covers the pixel paints it with its colour, or,
    having none, with the fill style left by the one before. *)
Fixpoint shown (style : string) (entities : list FlyingRectangle.t) (px py : Z)
    (below : option string) : option string :=
  match entities with
  | [] => below
  | r :: rest =>
      let style' := match FlyingRectangle.color r with Some c => c | None => style end in
      shown style' rest px py
        (if covers (FlyingRectangle.x r) (FlyingRectangle.y r)
              Sizes.RECT_WIDTH Sizes.RECT_HEIGHT px py
         then Some style' else below)
  end.

(** The state of the application after [setup] and [frames] frames on a
    context. *)
Definition running (window : Window) (context : RenderContext) (frames : nat)
  : Application.t :=
  Application.run window frames (Application.new context).

(** One axis of [update] at speed 2, on its own: a position and a direction
    on a surface of the given size, for a rectangle of the given extent.
    The later test (position at or below 0) wins over the earlier one. *)
Definition axis_step (size extent : Z) (pd : Z * Z) : Z * Z :=
  let d' := if fst pd <=? 0 then 1
            else if fst pd + extent >=? size then -1
            else snd pd in
  (fst pd + 2 * d', d').

(** The number of steps after which an axis started at [p] is back at [p]
    moving the same way: the room [size - extent], plus one where the
    positions reached (those of the parity of [p]) miss an end of it. *)
Definition axis_period (size extent p : Z) : nat :=
  Z.to_nat (size - extent + (size - extent - p) mod 2 + p mod 2).

Definition x_period (window : Window) : nat :=
  axis_period (Sizes.CANVAS_WIDTH window) Sizes.RECT_WIDTH (Sizes.rectCenterX window).

Definition y_period (window : Window) : nat :=
  axis_period (Sizes.CANVAS_HEIGHT window) Sizes.RECT_HEIGHT (Sizes.rectCenterY window).

(** A number of [update] calls after which the whole picture is back:
    eight joint periods of the two axes, for the eight colours. *)
Definition animation_period (window : Window) : nat :=
  8 * (x_period window * y_period window).

(* ===================================================================== *)
(** ** FlyingRectangle.update                                            *)
(* ===================================================================== *)

(** Reduce the field accesses and field updates of a rectangle. *)
Ltac rect_simpl :=
  cbv beta iota zeta delta
      [FlyingRectangle.colorIndex FlyingRectangle.color FlyingRectangle.speed
       FlyingRectangle.x FlyingRectangle.y FlyingRectangle.xDir FlyingRectangle.yDir
       FlyingRectangle.set_xDir FlyingRectangle.set_yDir
       FlyingRectangle.set_x FlyingRectangle.set_y
       FlyingRectangle.updateColor FlyingRectangle.move
       innerWidth innerHeight] in *.

Lemma rectCenterX_div (window : Window) :
  Sizes.rectCenterX window = (innerWidth window - 128) / 2.
Proof.
  unfold Sizes.rectCenterX, Sizes.CANVAS_WIDTH, Sizes.RECT_WIDTH.
  rewrite (Zdiv_Qdiv (innerWidth window - 128) 2).
  apply Qfloor_comp.
  unfold Z.sub. rewrite inject_Z_plus, inject_Z_opp. field.
Qed.

Lemma rectCenterY_div (window : Window) :
  Sizes.rectCenterY window = (innerHeight window - 72) / 2.
Proof.
  unfold Sizes.rectCenterY, Sizes.CANVAS_HEIGHT, Sizes.RECT_HEIGHT.
  rewrite (Zdiv_Qdiv (innerHeight window - 72) 2).
  apply Qfloor_comp.
  unfold Z.sub. rewrite inject_Z_plus, inject_Z_opp. field.
Qed.

(** One [update], field by field: the counter advances once for every test
    that holds on entry, the directions are those the later tests leave,
    and the move uses the new directions. *)
Lemma update_eq (window : Window) (r : FlyingRectangle.t) :
  FlyingRectangle.update window r =
  {| FlyingRectangle.colorIndex := FlyingRectangle.colorIndex r + advances window r;
     FlyingRectangle.color := color_after r (advances window r);
     FlyingRectangle.speed := FlyingRectangle.speed r;
     FlyingRectangle.x :=
       FlyingRectangle.x r + xDir_after window r * FlyingRectangle.speed r;
     FlyingRectangle.y :=
       FlyingRectangle.y r + yDir_after window r * FlyingRectangle.speed r;
     FlyingRectangle.xDir := xDir_after window r;
     FlyingRectangle.yDir := yDir_after window r |}.
Proof.
  destruct r as [ci c sp x0 y0 xd yd].
  unfold FlyingRectangle.update, advances, xDir_after, yDir_after, color_after.
  rect_simpl.
  unfold FlyingRectangle.collideRight. rect_simpl.
  destruct (x0 + Sizes.RECT_WIDTH >=? Sizes.CANVAS_WIDTH window);
    unfold FlyingRectangle.collideLeft; rect_simpl;
    destruct (x0 <=? 0);
    unfold FlyingRectangle.collideBottom; rect_simpl;
    destruct (y0 + Sizes.RECT_HEIGHT >=? Sizes.CANVAS_HEIGHT window);
    unfold FlyingRectangle.collideTop; rect_simpl;
    destruct (y0 <=? 0);
    rect_simpl;
    rewrite <- ?Z.add_assoc;
    cbn [Z.add Z.eqb Pos.add Pos.succ Pos.eqb Pos.add_carry];
    rewrite ?Z.add_0_r;
    reflexivity.
Qed.

(** Settle one test of [update] from the arithmetic at hand. *)
Ltac decide_test :=
  match goal with
  | |- context [ ?a >=? ?b ] => destruct (Z.geb_spec a b); try lia
  | |- context [ ?a <=? ?b ] => destruct (Z.leb_spec a b); try lia
  end.

(** Replace [update] by its fields and settle the tests. *)
Ltac eval_update :=
  rewrite ?update_eq;
  unfold advances, xDir_after, yDir_after, color_after,
    Sizes.CANVAS_WIDTH, Sizes.CANVAS_HEIGHT, Sizes.RECT_WIDTH, Sizes.RECT_HEIGHT,
    Directions.LEFT, Directions.RIGHT, Directions.UP, Directions.DOWN in *;
  rect_simpl;
  repeat decide_test.

(** C1.  Away from the four edges ([0 < x < CANVAS_WIDTH - RECT_WIDTH] and
    [0 < y < CANVAS_HEIGHT - RECT_HEIGHT]) one [update] moves the rectangle
    by exactly [(xDir * speed, yDir * speed)] and leaves the colour counter,
    the colour and both directions as they were. *)
Theorem update_interior (window : Window) (r : FlyingRectangle.t) :
  0 < FlyingRectangle.x r < Sizes.CANVAS_WIDTH window - Sizes.RECT_WIDTH ->
  0 < FlyingRectangle.y r < Sizes.CANVAS_HEIGHT window - Sizes.RECT_HEIGHT ->
  let r' := FlyingRectangle.update window r in
  FlyingRectangle.x r' = FlyingRectangle.x r + FlyingRectangle.xDir r * FlyingRectangle.speed r /\
  FlyingRectangle.y r' = FlyingRectangle.y r + FlyingRectangle.yDir r * FlyingRectangle.speed r /\
  FlyingRectangle.colorIndex r' = FlyingRectangle.colorIndex r /\
  FlyingRectangle.color r' = FlyingRectangle.color r /\
  FlyingRectangle.xDir r' = FlyingRectangle.xDir r /\
  FlyingRectangle.yDir r' = FlyingRectangle.yDir r /\
  FlyingRectangle.speed r' = FlyingRectangle.speed r.
Proof.
  intros Hx Hy. destruct r as [ci c sp x0 y0 xd yd]. cbv zeta.
  eval_update.
  cbn [Z.add Z.eqb]. rewrite Z.add_0_r. repeat split.
Qed.

Lemma update_interior_witness :
  let r := rect_at 400 300 1 (-1) in
  FlyingRectangle.x (FlyingRectangle.update window_1000 r) = 402 /\
  FlyingRectangle.y (FlyingRectangle.update window_1000 r) = 298 /\
  FlyingRectangle.colorIndex (FlyingRectangle.update window_1000 r) = 0.
Proof.
  pose proof (update_interior window_1000 (rect_at 400 300 1 (-1))) as H.
  cbv zeta in *.
  destruct H as (Hx & Hy & Hc & _); [cbn; lia | cbn; lia |].
  rewrite Hx, Hy, Hc. repeat split; reflexivity.
Defined.

(** One [update] advances the colour counter once for every test that
    holds on entry: the tests read [x] and [y], which only the final move
    changes. *)
Lemma update_colorIndex (window : Window) (r : FlyingRectangle.t) :
  FlyingRectangle.colorIndex (FlyingRectangle.update window r) =
  FlyingRectangle.colorIndex r + advances window r.
Proof.
  now rewrite update_eq.
Qed.

Lemma update_speed (window : Window) (r : FlyingRectangle.t) :
  FlyingRectangle.speed (FlyingRectangle.update window r) = FlyingRectangle.speed r.
Proof.
  now rewrite update_eq.
Qed.

(** The horizontal part of one [update], by the position on entry. *)
Lemma update_x_cases (window : Window) (r : FlyingRectangle.t) :
  let r' := FlyingRectangle.update window r in
  (FlyingRectangle.x r <= 0 ->
     FlyingRectangle.xDir r' = 1 /\
     FlyingRectangle.x r' = FlyingRectangle.x r + FlyingRectangle.speed r) /\
  (0 < FlyingRectangle.x r ->
   FlyingRectangle.x r + 128 >= innerWidth window ->
     FlyingRectangle.xDir r' = -1 /\
     FlyingRectangle.x r' = FlyingRectangle.x r - FlyingRectangle.speed r) /\
  (0 < FlyingRectangle.x r ->
   FlyingRectangle.x r + 128 < innerWidth window ->
     FlyingRectangle.xDir r' = FlyingRectangle.xDir r /\
     FlyingRectangle.x r' =
       FlyingRectangle.x r + FlyingRectangle.xDir r * FlyingRectangle.speed r).
Proof.
  cbv zeta. rewrite update_eq. destruct r as [ci c sp x0 y0 xd yd].
  unfold xDir_after, Sizes.CANVAS_WIDTH, Sizes.RECT_WIDTH,
    Directions.LEFT, Directions.RIGHT.
  rect_simpl.
  repeat split; intros; repeat decide_test; lia.
Qed.

(** The vertical part, likewise. *)
Lemma update_y_cases (window : Window) (r : FlyingRectangle.t) :
  let r' := FlyingRectangle.update window r in
  (FlyingRectangle.y r <= 0 ->
     FlyingRectangle.yDir r' = 1 /\
     FlyingRectangle.y r' = FlyingRectangle.y r + FlyingRectangle.speed r) /\
  (0 < FlyingRectangle.y r ->
   FlyingRectangle.y r + 72 >= innerHeight window ->
     FlyingRectangle.yDir r' = -1 /\
     FlyingRectangle.y r' = FlyingRectangle.y r - FlyingRectangle.speed r) /\
  (0 < FlyingRectangle.y r ->
   FlyingRectangle.y r + 72 < innerHeight window ->
     FlyingRectangle.yDir r' = FlyingRectangle.yDir r /\
     FlyingRectangle.y r' =
       FlyingRectangle.y r + FlyingRectangle.yDir r * FlyingRectangle.speed r).
Proof.
  cbv zeta. rewrite update_eq. destruct r as [ci c sp x0 y0 xd yd].
  unfold yDir_after, Sizes.CANVAS_HEIGHT, Sizes.RECT_HEIGHT,
    Directions.UP, Directions.DOWN.
  rect_simpl.
  repeat split; intros; repeat decide_test; lia.
Qed.

(** Name the state one [update] of [r] leaves, with its fields worked out
    from the arithmetic at hand. *)
Ltac step_update window r :=
  let r' := fresh "r" in
  let E := fresh "E" in
  remember (FlyingRectangle.update window r) as r' eqn:E;
  rewrite update_eq in E;
  unfold advances, xDir_after, yDir_after,
    Sizes.CANVAS_WIDTH, Sizes.CANVAS_HEIGHT, Sizes.RECT_WIDTH, Sizes.RECT_HEIGHT,
    Directions.LEFT, Directions.RIGHT, Directions.UP, Directions.DOWN in *;
  rect_simpl;
  revert E; repeat decide_test; intros E; subst r'.

(** C2, as stated, fails: in a surface 1000 wide the rectangle at x = 874
    already touches the right edge (874 + 128 = 1002 >= 1000), so the very
    next [update] flips the direction and yields x = 872, not 876. *)
Lemma boundary_example_874_refuted :
  ~ bounces_on_second_update window_1000 (rect_at 874 300 1 1).
Proof.
  unfold bounces_on_second_update.
  intros (Hx & _). vm_compute in Hx. discriminate Hx.
Qed.

(** C2, amended.  Surface 1000 wide, rectangle 128 wide, speed 2, moving
    right, no y-edge within reach.  From x = 870 the bounce is delayed as
    the example describes: the next [update] yields x = 872 without
    flipping; the one after (872 + 128 = 1000 >= 1000) flips to LEFT,
    advances the colour counter by 1 and moves back to 870; the third
    moves on to 868.  From x = 874 the first [update] already flips,
    advances the colour counter by 1 and yields x = 872. *)
Theorem boundary_example_1000 (window : Window) (r : FlyingRectangle.t) :
  innerWidth window = 1000 ->
  FlyingRectangle.speed r = 2 ->
  FlyingRectangle.xDir r = 1 ->
  FlyingRectangle.yDir r = 1 \/ FlyingRectangle.yDir r = -1 ->
  6 < FlyingRectangle.y r ->
  FlyingRectangle.y r + Sizes.RECT_HEIGHT + 6 < innerHeight window ->
  (let r0 := FlyingRectangle.set_x 870 r in
   let r1 := FlyingRectangle.update window r0 in
   let r2 := FlyingRectangle.update window r1 in
   let r3 := FlyingRectangle.update window r2 in
   bounces_on_second_update window r0 /\
   FlyingRectangle.x r1 = 872 /\
   FlyingRectangle.x r2 = 870 /\
   FlyingRectangle.x r3 = 868) /\
  (let r1 := FlyingRectangle.update window (FlyingRectangle.set_x 874 r) in
   FlyingRectangle.xDir r1 = Directions.LEFT /\
   FlyingRectangle.colorIndex r1 = FlyingRectangle.colorIndex r + 1 /\
   FlyingRectangle.x r1 = 872).
Proof.
  intros HW Hs Hx Hy Hlo Hhi.
  destruct window as [W H], r as [ci c sp x0 y0 xd yd].
  cbn in HW, Hs, Hx, Hy, Hlo, Hhi. subst W sp xd.
  unfold Sizes.RECT_HEIGHT in Hhi.
  unfold bounces_on_second_update. cbv zeta.
  split.
  - rect_simpl.
    match goal with |- context [FlyingRectangle.update ?w ?s] =>
      match s with
      | FlyingRectangle.Build_t _ _ _ _ _ _ _ => step_update w s
      end
    end.
    match goal with |- context [FlyingRectangle.update ?w ?s] =>
      match s with
      | FlyingRectangle.Build_t _ _ _ _ _ _ _ => step_update w s
      end
    end.
    match goal with |- context [FlyingRectangle.update ?w ?s] =>
      match s with
      | FlyingRectangle.Build_t _ _ _ _ _ _ _ => step_update w s
      end
    end.
    repeat split; lia.
  - rect_simpl.
    match goal with |- context [FlyingRectangle.update ?w ?s] => step_update w s end.
    repeat split; lia.
Qed.

Lemma boundary_example_1000_witness :
  bounces_on_second_update window_1000 (rect_at 870 300 1 1) /\
  FlyingRectangle.x (FlyingRectangle.update window_1000 (rect_at 874 300 1 1)) = 872.
Proof.
  pose proof (boundary_example_1000 window_1000 (rect_at 870 300 1 1)
                eq_refl eq_refl eq_refl (or_introl eq_refl)
                ltac:(cbn; lia) ltac:(cbn; lia)) as H.
  cbv zeta in H. destruct H as [(Hb & _) (_ & _ & Hx)].
  split; [exact Hb | exact Hx].
Defined.

(** C3, as stated, fails: in a window 100 wide and 50 high the rectangle
    is constructed at (-14, -11), where all four tests hold, and the first
    [update] advances the colour counter by 4. *)
Lemma corner_advance_by_two_refuted :
  let r := FlyingRectangle.new window_100 in
  (atRight window_100 r \/ atLeft r) /\
  (atBottom window_100 r \/ atTop r) /\
  FlyingRectangle.colorIndex (FlyingRectangle.update window_100 r) =
    FlyingRectangle.colorIndex r + 4 /\
  FlyingRectangle.colorIndex (FlyingRectangle.update window_100 r) <>
    FlyingRectangle.colorIndex r + 2.
Proof.
  cbv zeta. unfold atLeft, atTop.
  split; [right; vm_compute; discriminate |].
  split; [right; vm_compute; discriminate |].
  split; [vm_compute; reflexivity | vm_compute; discriminate].
Qed.

(** C3, amended.  When one x-edge test and one y-edge test hold on entry,
    and neither axis has both of its tests holding, one [update] advances
    the colour counter by exactly 2. *)
Theorem corner_advance_by_two (window : Window) (r : FlyingRectangle.t) :
  atRight window r \/ atLeft r ->
  atBottom window r \/ atTop r ->
  ~ (atRight window r /\ atLeft r) ->
  ~ (atBottom window r /\ atTop r) ->
  FlyingRectangle.colorIndex (FlyingRectangle.update window r) =
    FlyingRectangle.colorIndex r + 2.
Proof.
  unfold atRight, atLeft, atBottom, atTop.
  intros Hx Hy Nx Ny. rewrite update_colorIndex. unfold advances.
  repeat decide_test.
Qed.

Lemma corner_advance_by_two_witness :
  FlyingRectangle.colorIndex
    (FlyingRectangle.update window_1000 (rect_at 872 728 1 1)) = 2.
Proof.
  apply (corner_advance_by_two window_1000 (rect_at 872 728 1 1));
    unfold atRight, atLeft, atBottom, atTop; cbn; lia.
Defined.

(** C9.  When both x-tests hold on entry (which needs a surface no wider
    than the rectangle), the two x-tests leave the x-direction at RIGHT,
    the later left test overriding the right one, and advance the colour
    counter by 2 between them; the whole [update] then moves right. *)
Theorem both_x_edges (window : Window) (r : FlyingRectangle.t) :
  atRight window r ->
  atLeft r ->
  let r2 := FlyingRectangle.collideLeft (FlyingRectangle.collideRight window r) in
  let r' := FlyingRectangle.update window r in
  Sizes.CANVAS_WIDTH window <= Sizes.RECT_WIDTH /\
  FlyingRectangle.xDir (FlyingRectangle.collideRight window r) = Directions.LEFT /\
  FlyingRectangle.xDir r2 = Directions.RIGHT /\
  FlyingRectangle.colorIndex r2 = FlyingRectangle.colorIndex r + 2 /\
  FlyingRectangle.xDir r' = Directions.RIGHT /\
  FlyingRectangle.x r' = FlyingRectangle.x r + FlyingRectangle.speed r /\
  FlyingRectangle.colorIndex r + 2 <= FlyingRectangle.colorIndex r'.
Proof.
  unfold atRight, atLeft. intros HR HL. cbv zeta.
  split; [unfold Sizes.RECT_WIDTH in *; lia |].
  rewrite update_eq. destruct r as [ci c sp x0 y0 xd yd].
  unfold FlyingRectangle.collideRight. rect_simpl.
  destruct (Z.geb_spec (x0 + Sizes.RECT_WIDTH) (Sizes.CANVAS_WIDTH window)) as [_|N];
    [| lia].
  unfold FlyingRectangle.collideLeft. rect_simpl.
  destruct (Z.leb_spec x0 0) as [_|N]; [| lia].
  unfold advances, xDir_after, Directions.LEFT, Directions.RIGHT. rect_simpl.
  destruct (Z.geb_spec (x0 + Sizes.RECT_WIDTH) (Sizes.CANVAS_WIDTH window)) as [_|N];
    [| lia].
  destruct (Z.leb_spec x0 0) as [_|N]; [| lia].
  repeat split; try lia.
  destruct (_ >=? _), (_ <=? _); lia.
Qed.

Lemma both_x_edges_witness :
  let r := rect_at 0 200 (-1) 1 in
  FlyingRectangle.xDir (FlyingRectangle.update window_128 r) = 1 /\
  FlyingRectangle.colorIndex
    (FlyingRectangle.collideLeft (FlyingRectangle.collideRight window_128 r)) = 2.
Proof.
  pose proof (both_x_edges window_128 (rect_at 0 200 (-1) 1)
                ltac:(unfold atRight, Sizes.CANVAS_WIDTH, Sizes.RECT_WIDTH, rect_at,
                        window_128; rect_simpl; lia)
                ltac:(unfold atLeft, rect_at; rect_simpl; lia)) as H.
  cbv zeta in H. destruct H as (_ & _ & _ & Hc & Hd & _).
  split; [exact Hd | exact Hc].
Defined.

(** C8.  [FlyingRectangle.setup] does nothing: the state it returns is the
    state it was given, field by field, also when it is called through the
    [Entity] interface. *)
Theorem setup_noop (window : Window) (r : FlyingRectangle.t) :
  FlyingRectangle.setup r = r /\
  Entity.setup (t := FlyingRectangle.entity window) r = r /\
  FlyingRectangle.colorIndex (FlyingRectangle.setup r) = FlyingRectangle.colorIndex r /\
  FlyingRectangle.color (FlyingRectangle.setup r) = FlyingRectangle.color r /\
  FlyingRectangle.x (FlyingRectangle.setup r) = FlyingRectangle.x r /\
  FlyingRectangle.y (FlyingRectangle.setup r) = FlyingRectangle.y r /\
  FlyingRectangle.xDir (FlyingRectangle.setup r) = FlyingRectangle.xDir r /\
  FlyingRectangle.yDir (FlyingRectangle.setup r) = FlyingRectangle.yDir r /\
  FlyingRectangle.speed (FlyingRectangle.setup r) = FlyingRectangle.speed r.
Proof.
  repeat split.
Qed.

(* ===================================================================== *)
(** ** The position invariant                                            *)
(* ===================================================================== *)

Lemma new_position (window : Window) :
  2 * FlyingRectangle.x (FlyingRectangle.new window) <= innerWidth window - 128 <
    2 * FlyingRectangle.x (FlyingRectangle.new window) + 2 /\
  2 * FlyingRectangle.y (FlyingRectangle.new window) <= innerHeight window - 72 <
    2 * FlyingRectangle.y (FlyingRectangle.new window) + 2.
Proof.
  unfold FlyingRectangle.new. cbn [FlyingRectangle.x FlyingRectangle.y].
  rewrite rectCenterX_div, rectCenterY_div.
  pose proof (Z.div_mod (innerWidth window - 128) 2 ltac:(lia)).
  pose proof (Z.mod_pos_bound (innerWidth window - 128) 2 ltac:(lia)).
  pose proof (Z.div_mod (innerHeight window - 72) 2 ltac:(lia)).
  pose proof (Z.mod_pos_bound (innerHeight window - 72) 2 ltac:(lia)).
  lia.
Qed.

(** [update] keeps a state of speed 2 within the bounds, on any surface at
    least 2 wide and 2 high. *)
Lemma update_in_bounds (window : Window) (r : FlyingRectangle.t) :
  2 <= innerWidth window ->
  2 <= innerHeight window ->
  FlyingRectangle.speed r = 2 ->
  in_bounds window r ->
  in_bounds window (FlyingRectangle.update window r).
Proof.
  unfold in_bounds, Sizes.CANVAS_WIDTH, Sizes.CANVAS_HEIGHT.
  intros HW HH Hs (Hx & Hy & Hdx & Hdy).
  rewrite update_speed, Hs in *.
  destruct (update_x_cases window r) as (XL & XR & XM).
  destruct (update_y_cases window r) as (YT & YB & YM).
  rewrite Hs in *.
  assert (Hxx : - 2 <= FlyingRectangle.x (FlyingRectangle.update window r) <= innerWidth window
                /\ (FlyingRectangle.xDir (FlyingRectangle.update window r) = -1 \/
                    FlyingRectangle.xDir (FlyingRectangle.update window r) = 1)).
  { destruct (Z_le_gt_dec (FlyingRectangle.x r) 0) as [L|G].
    - destruct (XL L) as [-> ->]. lia.
    - destruct (Z_lt_ge_dec (FlyingRectangle.x r + 128) (innerWidth window)) as [M|R].
      + destruct (XM ltac:(lia) M) as [-> ->]. lia.
      + destruct (XR ltac:(lia) R) as [-> ->]. lia. }
  assert (Hyy : - 2 <= FlyingRectangle.y (FlyingRectangle.update window r) <= innerHeight window
                /\ (FlyingRectangle.yDir (FlyingRectangle.update window r) = -1 \/
                    FlyingRectangle.yDir (FlyingRectangle.update window r) = 1)).
  { destruct (Z_le_gt_dec (FlyingRectangle.y r) 0) as [L|G].
    - destruct (YT L) as [-> ->]. lia.
    - destruct (Z_lt_ge_dec (FlyingRectangle.y r + 72) (innerHeight window)) as [M|R].
      + destruct (YM ltac:(lia) M) as [-> ->]. lia.
      + destruct (YB ltac:(lia) R) as [-> ->]. lia. }
  tauto.
Qed.

Lemma after_updates_speed (window : Window) (n : nat) :
  FlyingRectangle.speed (after_updates window n) = 2.
Proof.
  induction n as [|n IH]; [reflexivity |].
  change (after_updates window (S n))
    with (FlyingRectangle.update window (after_updates window n)).
  now rewrite update_speed.
Qed.

(** C4, as stated, fails: in a window 100 wide the rectangle is constructed
    at x = floor(100/2 - 128/2) = -14, below [-speed = -2], before any
    [update] has run. *)
Lemma in_bounds_small_window_refuted :
  ~ in_bounds window_100 (after_updates window_100 0).
Proof.
  unfold in_bounds. intros ((H & _) & _).
  vm_compute in H. apply H. reflexivity.
Qed.

(** C4, amended.  On a surface at least 124 wide and 68 high (in
    particular on one at least as large as the rectangle), every state
    reached from the constructed one by repeated [update] calls has, on
    entry to the next [update], [-speed <= x <= CANVAS_WIDTH],
    [-speed <= y <= CANVAS_HEIGHT] and both directions in {-1, +1}. *)
Theorem in_bounds_invariant (window : Window) (n : nat) :
  124 <= innerWidth window ->
  68 <= innerHeight window ->
  in_bounds window (after_updates window n).
Proof.
  intros HW HH. induction n as [|n IH].
  - pose proof (new_position window) as [Px Py].
    change (after_updates window 0) with (FlyingRectangle.new window).
    unfold in_bounds, Sizes.CANVAS_WIDTH, Sizes.CANVAS_HEIGHT.
    unfold FlyingRectangle.new in *.
    cbn [FlyingRectangle.speed FlyingRectangle.x FlyingRectangle.y
         FlyingRectangle.xDir FlyingRectangle.yDir] in *.
    lia.
  - change (after_updates window (S n))
      with (FlyingRectangle.update window (after_updates window n)).
    apply update_in_bounds; try lia; [apply after_updates_speed | exact IH].
Qed.

Lemma in_bounds_invariant_witness :
  in_bounds window_1000 (after_updates window_1000 500).
Proof.
  apply (in_bounds_invariant window_1000 500); cbn; lia.
Defined.

(* ===================================================================== *)
(** ** The colour counter                                                *)
(* ===================================================================== *)

Lemma updateColor_ok (r : FlyingRectangle.t) :
  0 <= FlyingRectangle.colorIndex r -> color_ok (FlyingRectangle.updateColor r).
Proof.
  intros H. unfold color_ok, FlyingRectangle.updateColor.
  cbn [FlyingRectangle.colorIndex FlyingRectangle.color].
  change (Z.of_nat (List.length colors)) with 8.
  rewrite Z.rem_mod_nonneg by lia. split; [lia | reflexivity].
Qed.

Lemma advances_nonneg (window : Window) (r : FlyingRectangle.t) :
  0 <= advances window r <= 4.
Proof.
  unfold advances.
  destruct (_ >=? _), (_ <=? _), (_ >=? _), (_ <=? _); lia.
Qed.

Lemma update_ok (window : Window) (r : FlyingRectangle.t) :
  color_ok r -> color_ok (FlyingRectangle.update window r).
Proof.
  intros [H0 Hc]. pose proof (advances_nonneg window r) as A.
  rewrite update_eq. unfold color_ok, color_after. rect_simpl.
  split; [lia |].
  destruct (Z.eqb_spec (advances window r) 0) as [E|E].
  - now rewrite E, Z.add_0_r.
  - change (Z.of_nat (List.length colors)) with 8.
    now rewrite Z.rem_mod_nonneg by lia.
Qed.

Lemma reachable_ok (window : Window) (r : FlyingRectangle.t) :
  reachable window r -> color_ok r.
Proof.
  induction 1 as [| r _ IH | r _ IH | r _ IH | r context _ IH].
  - split; [cbn; lia | reflexivity].
  - exact IH.
  - apply update_ok, IH.
  - apply updateColor_ok, IH.
  - exact IH.
Qed.

Lemma updateColor_iter (n : nat) (r : FlyingRectangle.t) :
  FlyingRectangle.colorIndex (Nat.iter n FlyingRectangle.updateColor r) =
    FlyingRectangle.colorIndex r + Z.of_nat n.
Proof.
  induction n as [|n IH]; [cbn; lia |].
  change (Nat.iter (S n) FlyingRectangle.updateColor r)
    with (FlyingRectangle.updateColor (Nat.iter n FlyingRectangle.updateColor r)).
  unfold FlyingRectangle.updateColor at 1.
  cbn [FlyingRectangle.colorIndex]. rewrite IH. lia.
Qed.

(** C5.  In every state the methods can produce: the colour counter is
    never lowered by any method ([update] raises it or leaves it,
    [updateColor] raises it by 1, [setup] and [render] leave it), the
    colour field is [colors[colorIndex mod 8]], eight advances bring the
    colour back to what it was, and from counter 0 they bring it back to
    the first palette entry. *)
Theorem color_counter (window : Window) (r : FlyingRectangle.t) :
  reachable window r ->
  0 <= FlyingRectangle.colorIndex r /\
  FlyingRectangle.color r = array_get colors (FlyingRectangle.colorIndex r mod 8) /\
  FlyingRectangle.colorIndex r <=
    FlyingRectangle.colorIndex (FlyingRectangle.update window r) /\
  FlyingRectangle.colorIndex (FlyingRectangle.updateColor r) =
    FlyingRectangle.colorIndex r + 1 /\
  FlyingRectangle.colorIndex (FlyingRectangle.setup r) = FlyingRectangle.colorIndex r /\
  (forall context,
     FlyingRectangle.colorIndex (fst (FlyingRectangle.render context r)) =
       FlyingRectangle.colorIndex r) /\
  FlyingRectangle.color (Nat.iter 8 FlyingRectangle.updateColor r) =
    FlyingRectangle.color r /\
  (FlyingRectangle.colorIndex r = 0 ->
     FlyingRectangle.color (Nat.iter 8 FlyingRectangle.updateColor r) = array_get colors 0 /\
     array_get colors 0 = Some "red").
Proof.
  intros Hr. pose proof (reachable_ok window r Hr) as [H0 Hc].
  assert (H8 : FlyingRectangle.color (Nat.iter 8 FlyingRectangle.updateColor r) =
               FlyingRectangle.color r).
  { change (Nat.iter 8 FlyingRectangle.updateColor r)
      with (FlyingRectangle.updateColor (Nat.iter 7 FlyingRectangle.updateColor r)).
    destruct (updateColor_ok (Nat.iter 7 FlyingRectangle.updateColor r)) as [_ E].
    { rewrite updateColor_iter. lia. }
    rewrite E, Hc.
    change (FlyingRectangle.updateColor (Nat.iter 7 FlyingRectangle.updateColor r))
      with (Nat.iter 8 FlyingRectangle.updateColor r).
    rewrite updateColor_iter.
    change (Z.of_nat 8) with (1 * 8). now rewrite Z.mod_add by lia. }
  repeat split; try assumption; try reflexivity.
  - rewrite update_colorIndex. pose proof (advances_nonneg window r). lia.
  - now rewrite H8, Hc, H.
Qed.

Lemma color_counter_witness :
  FlyingRectangle.color
    (Nat.iter 8 FlyingRectangle.updateColor (FlyingRectangle.new window_1000)) =
    Some "red".
Proof.
  destruct (color_counter window_1000 (FlyingRectangle.new window_1000)
              (reach_new window_1000)) as (_ & _ & _ & _ & _ & _ & _ & H).
  destruct (H eq_refl) as [H1 H2].
  rewrite H1. exact H2.
Defined.

(* ===================================================================== *)
(** ** Startup                                                           *)
(* ===================================================================== *)

(** C6, as stated, fails on the wording of the errors: without a mounting
    element the script throws a plain [Error] whose message is
    "Root element is missing". *)
Lemma startup_error_wording_refuted :
  snd (startup window_1000 no_context None) <> inl (SetupError "root element missing").
Proof.
  cbn. discriminate.
Qed.

(** C6, amended.  Startup fails in exactly two cases.  Without a mounting
    element it throws [Error "Root element is missing"]; with one, but
    without a 2D context for the canvas, [Application.create] throws
    [Error "Failed to retrieve rendering context"] and returns no
    application.  In every other case it returns the application built on
    the context, with no entities yet, and letting [run] turn any number of
    frames adds no failure. *)
Theorem startup_errors (window : Window)
    (getContext : HTMLCanvasElement -> option RenderContext)
    (document : option Element) :
  let result := snd (startup window getContext document) in
  (result = inl (Error "Root element is missing") <-> document = None) /\
  (result = inl (Error "Failed to retrieve rendering context") <->
     document <> None /\ getContext (Application.canvas window) = None) /\
  (forall e, result = inl e ->
     e = Error "Root element is missing" \/
     e = Error "Failed to retrieve rendering context") /\
  (forall app, result = inr app <->
     document <> None /\
     exists context, getContext (Application.canvas window) = Some context /\
                     app = Application.new context) /\
  (forall frames e,
     snd (main window getContext frames document) = inl e <-> result = inl e).
Proof.
  unfold main, startup, Application.create, bind, appendChild, throw, ret.
  destruct document as [root|]; cbn.
  - destruct (getContext (Application.canvas window)) as [context|] eqn:G; cbn.
    + repeat split; try discriminate; try congruence.
      * intros [_ H]; discriminate H.
      * exists context. split; congruence.
      * intros [_ (c & H1 & H2)]. congruence.
    + repeat split; try discriminate; try congruence.
      * intros e H. right. congruence.
      * intros [_ (c & H1 & _)]. discriminate.
  - repeat split; try discriminate; try congruence.
    + intros [H _]. congruence.
    + intros e H. left. congruence.
    + intros [H _]. congruence.
Qed.

Lemma startup_errors_witness :
  snd (startup window_1000 no_context None) = inl (Error "Root element is missing") /\
  snd (startup window_1000 no_context (Some empty_root)) =
    inl (Error "Failed to retrieve rendering context") /\
  snd (startup window_1000 fresh_context (Some empty_root)) =
    inr (Application.new blank_context).
Proof.
  split; [| split].
  - apply (proj1 (startup_errors window_1000 no_context None)). reflexivity.
  - apply (proj1 (proj2 (startup_errors window_1000 no_context (Some empty_root)))).
    split; [discriminate | reflexivity].
  - apply (proj1 (proj2 (proj2 (proj2
             (startup_errors window_1000 fresh_context (Some empty_root)))))).
    split; [discriminate |]. exists blank_context. split; reflexivity.
Defined.

(** C10.  [Application.create] appends the canvas to the mounting element
    before it asks for the context: when no context is to be had, the error
    is thrown with the canvas already the last child of the mounting
    element, and that is the element the failed startup leaves behind. *)
Theorem create_fails_with_canvas_attached (window : Window)
    (getContext : HTMLCanvasElement -> option RenderContext) (root : Element) :
  getContext (Application.canvas window) = None ->
  Application.create window getContext root =
    ({| childNodes := childNodes root ++ [CanvasNode (Application.canvas window)] |},
     inl (Error "Failed to retrieve rendering context")) /\
  fst (appendChild (Application.canvas window) root) =
    fst (Application.create window getContext root) /\
  fst (startup window getContext (Some root)) =
    Some {| childNodes := childNodes root ++ [CanvasNode (Application.canvas window)] |}.
Proof.
  intros G.
  unfold startup, Application.create, bind, appendChild, throw.
  rewrite G. repeat split.
Qed.

Lemma create_fails_with_canvas_attached_witness :
  Application.create window_1000 no_context empty_root =
    ({| childNodes := [CanvasNode (Application.canvas window_1000)] |},
     inl (Error "Failed to retrieve rendering context")).
Proof.
  apply (create_fails_with_canvas_attached window_1000 no_context empty_root).
  reflexivity.
Defined.

(* ===================================================================== *)
(** ** Rendering                                                         *)
(* ===================================================================== *)

(** Rendering a rectangle returns it as it was and adds two calls. *)
Lemma rect_render (context : RenderContext) (r : FlyingRectangle.t) :
  let style' :=
    match FlyingRectangle.color r with Some c => c | None => fillStyle context end in
  FlyingRectangle.render context r =
    (r, {| fillStyle := style';
           calls := calls context ++
                    [BeginPath;
                     FillRect style' (FlyingRectangle.x r) (FlyingRectangle.y r)
                       Sizes.RECT_WIDTH Sizes.RECT_HEIGHT] |}).
Proof.
  unfold FlyingRectangle.render, fillRect, set_fillStyle, beginPath, issue.
  destruct (FlyingRectangle.color r); cbn; rewrite <- app_assoc; reflexivity.
Qed.

Lemma forEach_render_rects (window : Window) (entities : list FlyingRectangle.t) :
  forall context,
    fst (forEach_render (H := Application.rect_entity window) context entities) = entities /\
    calls (snd (forEach_render (H := Application.rect_entity window) context entities)) =
      calls context ++ drawn_calls (fillStyle context) entities.
Proof.
  induction entities as [|r rest IH]; intros context.
  - cbn. now rewrite app_nil_r.
  - cbn [forEach_render drawn_calls].
    change (Entity.render context r) with (FlyingRectangle.render context r).
    rewrite rect_render. cbv zeta.
    specialize (IH {| fillStyle :=
                        match FlyingRectangle.color r with
                        | Some c => c
                        | None => fillStyle context
                        end;
                      calls := calls context ++
                        [BeginPath;
                         FillRect
                           match FlyingRectangle.color r with
                           | Some c => c
                           | None => fillStyle context
                           end (FlyingRectangle.x r) (FlyingRectangle.y r)
                           Sizes.RECT_WIDTH Sizes.RECT_HEIGHT] |}).
    destruct (forEach_render _ rest) as [rest' context''].
    cbn [fst snd fillStyle calls] in *. destruct IH as [-> ->].
    split; [reflexivity |]. now rewrite <- app_assoc.
Qed.

Lemma render_trace (window : Window) (app : Application.t) :
  Application.entities (Application.render window app) = Application.entities app /\
  calls (Application.context (Application.render window app)) =
    calls (Application.context app)
    ++ ClearRect 0 0 (Sizes.CANVAS_WIDTH window) (Sizes.CANVAS_HEIGHT window)
    :: drawn_calls (fillStyle (Application.context app)) (Application.entities app).
Proof.
  unfold Application.render, Application.clear.
  cbn [Application.entities Application.context].
  pose proof (forEach_render_rects window (Application.entities app)
                (clearRect 0 0 (Sizes.CANVAS_WIDTH window) (Sizes.CANVAS_HEIGHT window)
                   (Application.context app))) as [He Hc].
  destruct (forEach_render _ _) as [entities' context'].
  cbn [fst snd Application.entities Application.context] in *.
  split; [exact He |].
  rewrite Hc. cbn. now rewrite <- app_assoc.
Qed.

(** With colours from the palette the calls do not depend on the fill
    style the context was left with. *)
Lemma drawn_calls_palette (entities : list FlyingRectangle.t) (style style' : string) :
  Forall palette_colored entities ->
  drawn_calls style entities = drawn_calls style' entities.
Proof.
  intros F. revert style style'.
  induction F as [|r rest Hr _ IH]; intros style style'; [reflexivity |].
  cbn [drawn_calls]. unfold palette_colored in Hr.
  apply in_map_iff in Hr as (c & Hc & _). rewrite <- Hc. reflexivity.
Qed.

(** A full clear hides everything drawn before it. *)
Lemma visible_after_clear (window : Window) (style : string)
    (before after : list draw_call) (px py : Z) :
  visible window
    {| fillStyle := style;
       calls := before
                ++ ClearRect 0 0 (Sizes.CANVAS_WIDTH window) (Sizes.CANVAS_HEIGHT window)
                :: after |} px py =
  visible window {| fillStyle := style; calls := after |} px py.
Proof.
  unfold visible, Sizes.CANVAS_WIDTH, Sizes.CANVAS_HEIGHT. cbn [calls].
  destruct (covers 0 0 (innerWidth window) (innerHeight window) px py) eqn:C;
    [| reflexivity].
  rewrite fold_left_app. cbn [fold_left paint]. now rewrite C.
Qed.

Lemma visible_calls (window : Window) (c1 c2 : RenderContext) (px py : Z) :
  calls c1 = calls c2 -> visible window c1 px py = visible window c2 px py.
Proof.
  unfold visible. now intros ->.
Qed.

Lemma render_twice_visible (window : Window) (app : Application.t) (px py : Z) :
  Forall palette_colored (Application.entities app) ->
  visible window
    (Application.context (Application.render window (Application.render window app))) px py =
  visible window (Application.context (Application.render window app)) px py.
Proof.
  intros F.
  destruct (render_trace window app) as [E1 C1].
  destruct (render_trace window (Application.render window app)) as [E2 C2].
  rewrite E1 in C2.
  rewrite (drawn_calls_palette _ _ (fillStyle (Application.context app)) F) in C2.
  rewrite (visible_calls window _
             {| fillStyle := "";
                calls := calls (Application.context (Application.render window app))
                  ++ ClearRect 0 0 (Sizes.CANVAS_WIDTH window) (Sizes.CANVAS_HEIGHT window)
                  :: drawn_calls (fillStyle (Application.context app))
                       (Application.entities app) |} px py C2).
  rewrite (visible_calls window (Application.context (Application.render window app))
             {| fillStyle := "";
                calls := calls (Application.context app)
                  ++ ClearRect 0 0 (Sizes.CANVAS_WIDTH window) (Sizes.CANVAS_HEIGHT window)
                  :: drawn_calls (fillStyle (Application.context app))
                       (Application.entities app) |} px py C1).
  now rewrite !visible_after_clear.
Qed.

Lemma color_ok_palette (r : FlyingRectangle.t) :
  color_ok r -> palette_colored r.
Proof.
  intros [_ Hc]. unfold palette_colored. rewrite Hc.
  pose proof (Z.mod_pos_bound (FlyingRectangle.colorIndex r) 8 ltac:(lia)) as B.
  set (k := FlyingRectangle.colorIndex r mod 8) in *.
  assert (K : k = 0 \/ k = 1 \/ k = 2 \/ k = 3 \/ k = 4 \/ k = 5 \/ k = 6 \/ k = 7) by lia.
  clearbody k.
  repeat (destruct K as [-> | K]; [cbn; tauto |]).
  subst k. cbn. tauto.
Qed.

Lemma after_updates_reachable (window : Window) (n : nat) :
  reachable window (after_updates window n).
Proof.
  induction n as [|n IH]; [apply reach_new |].
  apply (reach_update window _ IH).
Qed.

(** The application [run] has brought through [frames] turns holds the one
    rectangle, updated that many times. *)
Lemma run_entities (window : Window) (context : RenderContext) (frames : nat) :
  Application.entities (Application.run window frames (Application.new context)) =
    [after_updates window frames].
Proof.
  unfold Application.run.
  induction frames as [|n IH]; [reflexivity |].
  rewrite Nat.iter_succ. unfold Application.frame at 1.
  destruct (render_trace window
              (Application.update window
                 (Nat.iter n (Application.frame window)
                    (Application.setup window (Application.new context))))) as [-> _].
  unfold Application.update at 1. cbn [Application.entities].
  rewrite IH. reflexivity.
Qed.

(** C7.  [Application.render] issues, after whatever the context held, a
    clear of the whole surface and then the calls of every entity in
    collection order, and leaves the entity collection as it was; a
    rectangle's [render] returns the rectangle unchanged and only extends
    the calls of the context.  So a second [render] on unchanged entities
    shows, pixel for pixel, what the first one showed: for any entities
    coloured from the palette, and in particular in every state the running
    application reaches. *)
Theorem render_clears_then_draws (window : Window) (app : Application.t) :
  let app' := Application.render window app in
  calls (Application.context app') =
    calls (Application.context app)
    ++ ClearRect 0 0 (Sizes.CANVAS_WIDTH window) (Sizes.CANVAS_HEIGHT window)
    :: drawn_calls (fillStyle (Application.context app)) (Application.entities app) /\
  Application.entities app' = Application.entities app /\
  (forall context r,
     fst (FlyingRectangle.render context r) = r /\
     exists issued,
       calls (snd (FlyingRectangle.render context r)) = calls context ++ issued) /\
  (Forall palette_colored (Application.entities app) ->
   forall px py,
     visible window (Application.context (Application.render window app')) px py =
     visible window (Application.context app') px py) /\
  (forall context frames px py,
     let running := Application.run window frames (Application.new context) in
     visible window
       (Application.context
          (Application.render window (Application.render window running))) px py =
     visible window (Application.context (Application.render window running)) px py).
Proof.
  cbv zeta. destruct (render_trace window app) as [E C].
  split; [exact C |]. split; [exact E |]. split; [| split].
  - intros context r. rewrite rect_render. cbn. split; [reflexivity |]. eauto.
  - intros F px py. now apply render_twice_visible.
  - intros context frames px py. apply render_twice_visible.
    rewrite run_entities. constructor; [| constructor].
    apply color_ok_palette, (reachable_ok window), after_updates_reachable.
Qed.

Lemma render_clears_then_draws_witness :
  Forall palette_colored (Application.entities two_rectangles) /\
  visible window_1000
    (Application.context
       (Application.render window_1000 (Application.render window_1000 two_rectangles)))
    120 70 =
  visible window_1000
    (Application.context (Application.render window_1000 two_rectangles)) 120 70.
Proof.
  assert (F : Forall palette_colored (Application.entities two_rectangles)).
  { repeat constructor. }
  split; [exact F |].
  apply (proj1 (proj2 (proj2 (proj2 (render_clears_then_draws window_1000 two_rectangles))))).
  exact F.
Defined.

(* ===================================================================== *)
(** ** Further properties: the trajectory                                *)
(* ===================================================================== *)

(** With speed 2, each axis of one [update] on its own: the direction the
    tests leave, and a move of 2 in that direction. *)
Lemma update_axes (window : Window) (r : FlyingRectangle.t) :
  FlyingRectangle.speed r = 2 ->
  let r' := FlyingRectangle.update window r in
  FlyingRectangle.x r' = FlyingRectangle.x r + 2 * xDir_after window r /\
  FlyingRectangle.xDir r' = xDir_after window r /\
  FlyingRectangle.y r' = FlyingRectangle.y r + 2 * yDir_after window r /\
  FlyingRectangle.yDir r' = yDir_after window r /\
  FlyingRectangle.speed r' = 2.
Proof.
  intros Hs. cbv zeta. rewrite update_eq.
  cbn [FlyingRectangle.x FlyingRectangle.y FlyingRectangle.xDir
       FlyingRectangle.yDir FlyingRectangle.speed].
  rewrite Hs. repeat split; lia.
Qed.

Lemma after_updates_succ (window : Window) (n : nat) :
  after_updates window (S n) =
    FlyingRectangle.update window (after_updates window n).
Proof.
  reflexivity.
Qed.

Lemma after_updates_dirs (window : Window) (n : nat) :
  (FlyingRectangle.xDir (after_updates window n) = -1 \/
   FlyingRectangle.xDir (after_updates window n) = 1) /\
  (FlyingRectangle.yDir (after_updates window n) = -1 \/
   FlyingRectangle.yDir (after_updates window n) = 1).
Proof.
  induction n as [|n IH].
  - split; right; reflexivity.
  - rewrite after_updates_succ.
    destruct (update_axes window (after_updates window n)
                (after_updates_speed window n)) as (_ & -> & _ & -> & _).
    unfold xDir_after, yDir_after, Directions.LEFT, Directions.RIGHT,
      Directions.UP, Directions.DOWN.
    destruct IH as [IHx IHy].
    split.
    + destruct (_ <=? _); [right; reflexivity |].
      destruct (_ >=? _); [left; reflexivity | exact IHx].
    + destruct (_ <=? _); [right; reflexivity |].
      destruct (_ >=? _); [left; reflexivity | exact IHy].
Qed.

(** X1.  The constructed rectangle is centred: the margin on its right is the
    margin on its left or one pixel more, and likewise below and above,
    whatever the size of the window. *)
Theorem new_centered (window : Window) :
  let r := FlyingRectangle.new window in
  let left := FlyingRectangle.x r in
  let right := Sizes.CANVAS_WIDTH window - (FlyingRectangle.x r + Sizes.RECT_WIDTH) in
  let top := FlyingRectangle.y r in
  let bottom := Sizes.CANVAS_HEIGHT window - (FlyingRectangle.y r + Sizes.RECT_HEIGHT) in
  (right = left \/ right = left + 1) /\
  (bottom = top \/ bottom = top + 1).
Proof.
  cbv zeta. pose proof (new_position window) as [Px Py].
  unfold Sizes.CANVAS_WIDTH, Sizes.CANVAS_HEIGHT, Sizes.RECT_WIDTH, Sizes.RECT_HEIGHT.
  lia.
Qed.

(** X2.  The two axes do not influence each other: the horizontal course of the
    rectangle depends on the width of the window only, the vertical course
    on its height only. *)
Theorem axes_independent (window window' : Window) (n : nat) :
  (innerWidth window = innerWidth window' ->
   FlyingRectangle.x (after_updates window n) =
     FlyingRectangle.x (after_updates window' n) /\
   FlyingRectangle.xDir (after_updates window n) =
     FlyingRectangle.xDir (after_updates window' n)) /\
  (innerHeight window = innerHeight window' ->
   FlyingRectangle.y (after_updates window n) =
     FlyingRectangle.y (after_updates window' n) /\
   FlyingRectangle.yDir (after_updates window n) =
     FlyingRectangle.yDir (after_updates window' n)).
Proof.
  split; intros HW.
  - induction n as [|n [IHx IHd]].
    + change (after_updates window 0) with (FlyingRectangle.new window).
      change (after_updates window' 0) with (FlyingRectangle.new window').
      unfold FlyingRectangle.new.
      cbn [FlyingRectangle.x FlyingRectangle.xDir].
      rewrite !rectCenterX_div, HW. split; reflexivity.
    + rewrite !after_updates_succ.
      destruct (update_axes window (after_updates window n)
                  (after_updates_speed window n)) as (-> & -> & _).
      destruct (update_axes window' (after_updates window' n)
                  (after_updates_speed window' n)) as (-> & -> & _).
      unfold xDir_after, Sizes.CANVAS_WIDTH. rewrite IHx, IHd, HW.
      split; reflexivity.
  - induction n as [|n [IHy IHd]].
    + change (after_updates window 0) with (FlyingRectangle.new window).
      change (after_updates window' 0) with (FlyingRectangle.new window').
      unfold FlyingRectangle.new.
      cbn [FlyingRectangle.y FlyingRectangle.yDir].
      rewrite !rectCenterY_div, HW. split; reflexivity.
    + rewrite !after_updates_succ.
      destruct (update_axes window (after_updates window n)
                  (after_updates_speed window n)) as (_ & _ & -> & -> & _).
      destruct (update_axes window' (after_updates window' n)
                  (after_updates_speed window' n)) as (_ & _ & -> & -> & _).
      unfold yDir_after, Sizes.CANVAS_HEIGHT. rewrite IHy, IHd, HW.
      split; reflexivity.
Qed.

Lemma axes_independent_witness :
  FlyingRectangle.x (after_updates window_1000 300) =
    FlyingRectangle.x (after_updates window_1000_600 300) /\
  FlyingRectangle.xDir (after_updates window_1000 300) =
    FlyingRectangle.xDir (after_updates window_1000_600 300).
Proof.
  apply (proj1 (axes_independent window_1000 window_1000_600 300)).
  reflexivity.
Defined.

Lemma near_surface_bound (window : Window) (n : nat) :
  Sizes.RECT_WIDTH < Sizes.CANVAS_WIDTH window ->
  Sizes.RECT_HEIGHT < Sizes.CANVAS_HEIGHT window ->
  near_surface window (after_updates window n).
Proof.
  unfold near_surface, Sizes.CANVAS_WIDTH, Sizes.CANVAS_HEIGHT,
    Sizes.RECT_WIDTH, Sizes.RECT_HEIGHT.
  intros HW HH. induction n as [|n IH].
  - pose proof (new_position window) as [Px Py].
    change (after_updates window 0) with (FlyingRectangle.new window). lia.
  - rewrite after_updates_succ.
    destruct (update_axes window (after_updates window n)
                (after_updates_speed window n)) as (-> & _ & -> & _).
    destruct (after_updates_dirs window n) as [Dx Dy].
    unfold xDir_after, yDir_after, Sizes.CANVAS_WIDTH, Sizes.CANVAS_HEIGHT,
      Sizes.RECT_WIDTH, Sizes.RECT_HEIGHT,
      Directions.LEFT, Directions.RIGHT, Directions.UP, Directions.DOWN.
    repeat decide_test.
Qed.

(** X3.  On a surface larger than the rectangle the rectangle never sticks out
    by more than one pixel: from construction on, [-1 <= x],
    [x + RECT_WIDTH <= CANVAS_WIDTH + 1], and likewise vertically. *)
Theorem near_surface_invariant (window : Window) (n : nat) :
  Sizes.RECT_WIDTH < Sizes.CANVAS_WIDTH window ->
  Sizes.RECT_HEIGHT < Sizes.CANVAS_HEIGHT window ->
  near_surface window (after_updates window n).
Proof.
  apply near_surface_bound.
Qed.

Lemma near_surface_invariant_witness :
  near_surface window_1000 (after_updates window_1000 1000).
Proof.
  apply (near_surface_invariant window_1000 1000); reflexivity.
Defined.

Lemma after_updates_even (window : Window) (n : nat) :
  (FlyingRectangle.x (after_updates window n) - Sizes.rectCenterX window) mod 2 = 0 /\
  (FlyingRectangle.y (after_updates window n) - Sizes.rectCenterY window) mod 2 = 0.
Proof.
  induction n as [|n [IHx IHy]].
  - change (after_updates window 0) with (FlyingRectangle.new window).
    unfold FlyingRectangle.new. cbn [FlyingRectangle.x FlyingRectangle.y].
    rewrite !Z.sub_diag. split; reflexivity.
  - rewrite after_updates_succ.
    destruct (update_axes window (after_updates window n)
                (after_updates_speed window n)) as (-> & _ & -> & _).
    split.
    + replace (FlyingRectangle.x (after_updates window n)
               + 2 * xDir_after window (after_updates window n)
               - Sizes.rectCenterX window)
        with (FlyingRectangle.x (after_updates window n) - Sizes.rectCenterX window
              + xDir_after window (after_updates window n) * 2) by lia.
      now rewrite Z.mod_add by lia.
    + replace (FlyingRectangle.y (after_updates window n)
               + 2 * yDir_after window (after_updates window n)
               - Sizes.rectCenterY window)
        with (FlyingRectangle.y (after_updates window n) - Sizes.rectCenterY window
              + yDir_after window (after_updates window n) * 2) by lia.
      now rewrite Z.mod_add by lia.
Qed.

(** X4.  When the room left by the rectangle is a positive multiple of 4 on
    both axes, the rectangle touches the edges exactly and never leaves
    the surface: [0 <= x <= CANVAS_WIDTH - RECT_WIDTH] and
    [0 <= y <= CANVAS_HEIGHT - RECT_HEIGHT] from construction on. *)
Theorem inside_surface_invariant (window : Window) (n : nat) :
  Sizes.RECT_WIDTH < Sizes.CANVAS_WIDTH window ->
  Sizes.RECT_HEIGHT < Sizes.CANVAS_HEIGHT window ->
  (Sizes.CANVAS_WIDTH window - Sizes.RECT_WIDTH) mod 4 = 0 ->
  (Sizes.CANVAS_HEIGHT window - Sizes.RECT_HEIGHT) mod 4 = 0 ->
  inside_surface window (after_updates window n).
Proof.
  unfold inside_surface, Sizes.CANVAS_WIDTH, Sizes.CANVAS_HEIGHT,
    Sizes.RECT_WIDTH, Sizes.RECT_HEIGHT.
  intros HW HH MW MH.
  pose proof (Z.div_mod (innerWidth window - 128) 4 ltac:(lia)) as EW.
  pose proof (Z.div_mod (innerHeight window - 72) 4 ltac:(lia)) as EH.
  rewrite MW in EW. rewrite MH in EH.
  pose proof (new_position window) as [Px Py].
  change (FlyingRectangle.x (FlyingRectangle.new window))
    with (Sizes.rectCenterX window) in Px.
  change (FlyingRectangle.y (FlyingRectangle.new window))
    with (Sizes.rectCenterY window) in Py.
  induction n as [|n IH].
  - change (after_updates window 0) with (FlyingRectangle.new window).
    unfold FlyingRectangle.new. cbn [FlyingRectangle.x FlyingRectangle.y]. lia.
  - destruct (after_updates_even window n) as [Ex Ey].
    pose proof (Z.div_mod (FlyingRectangle.x (after_updates window n)
                           - Sizes.rectCenterX window) 2 ltac:(lia)) as Dx.
    pose proof (Z.div_mod (FlyingRectangle.y (after_updates window n)
                           - Sizes.rectCenterY window) 2 ltac:(lia)) as Dy.
    rewrite Ex in Dx. rewrite Ey in Dy.
    rewrite after_updates_succ.
    destruct (update_axes window (after_updates window n)
                (after_updates_speed window n)) as (-> & _ & -> & _).
    destruct (after_updates_dirs window n) as [Dirx Diry].
    unfold xDir_after, yDir_after, Sizes.CANVAS_WIDTH, Sizes.CANVAS_HEIGHT,
      Sizes.RECT_WIDTH, Sizes.RECT_HEIGHT,
      Directions.LEFT, Directions.RIGHT, Directions.UP, Directions.DOWN.
    repeat decide_test.
Qed.

Lemma inside_surface_invariant_witness :
  inside_surface window_1000 (after_updates window_1000 1000).
Proof.
  apply (inside_surface_invariant window_1000 1000); reflexivity.
Defined.

(** X5.  On a surface larger than the rectangle no edge holds the rectangle:
    whichever of the four tests holds on entry to one [update] fails on
    entry to the next, so one hit of a wall advances the colour once. *)
Theorem no_test_twice_in_a_row (window : Window) (n : nat) :
  Sizes.RECT_WIDTH < Sizes.CANVAS_WIDTH window ->
  Sizes.RECT_HEIGHT < Sizes.CANVAS_HEIGHT window ->
  let r := after_updates window n in
  let r' := after_updates window (S n) in
  (atRight window r -> ~ atRight window r') /\
  (atLeft r -> ~ atLeft r') /\
  (atBottom window r -> ~ atBottom window r') /\
  (atTop r -> ~ atTop r').
Proof.
  intros HW HH. cbv zeta.
  pose proof (near_surface_bound window n) as B.
  rewrite after_updates_succ.
  destruct (update_axes window (after_updates window n)
              (after_updates_speed window n)) as (Ex & _ & Ey & _).
  revert B Ex Ey.
  unfold atRight, atLeft, atBottom, atTop, near_surface, xDir_after, yDir_after,
    Sizes.CANVAS_WIDTH, Sizes.CANVAS_HEIGHT, Sizes.RECT_WIDTH, Sizes.RECT_HEIGHT,
    Directions.LEFT, Directions.RIGHT, Directions.UP, Directions.DOWN in *.
  intros B. specialize (B HW HH).
  repeat decide_test.
Qed.

Lemma no_test_twice_in_a_row_witness :
  atRight window_1000 (after_updates window_1000 218) /\
  ~ atRight window_1000 (after_updates window_1000 219).
Proof.
  assert (A : atRight window_1000 (after_updates window_1000 218)).
  { unfold atRight. vm_compute. discriminate. }
  split; [exact A |].
  exact (proj1 (no_test_twice_in_a_row window_1000 218 eq_refl eq_refl) A).
Defined.

(** While the right edge is out of reach the constructed rectangle keeps
    moving right, 2 per [update]. *)
Lemma moving_right (window : Window) (n : nat) :
  Sizes.rectCenterX window + 2 * Z.of_nat n + 126 < innerWidth window ->
  FlyingRectangle.x (after_updates window n) =
    Sizes.rectCenterX window + 2 * Z.of_nat n /\
  FlyingRectangle.xDir (after_updates window n) = 1.
Proof.
  induction n as [|n IH]; intros H.
  - change (after_updates window 0) with (FlyingRectangle.new window).
    unfold FlyingRectangle.new. cbn [FlyingRectangle.x FlyingRectangle.xDir].
    split; [lia | reflexivity].
  - destruct IH as [IHx IHd]; [lia |].
    rewrite after_updates_succ.
    destruct (update_axes window (after_updates window n)
                (after_updates_speed window n)) as (-> & -> & _).
    unfold xDir_after, Sizes.CANVAS_WIDTH, Sizes.RECT_WIDTH,
      Directions.LEFT, Directions.RIGHT.
    rewrite IHx, IHd. repeat decide_test.
Qed.

(** X6.  The first bounce.  On a surface wider than the rectangle, the
    constructed rectangle moves right by 2 per [update], without touching
    the right edge, for [first_right_bounce] calls; on entry to the next
    call it touches the edge, and that call turns it LEFT, moves it back
    by 2 and advances the colour counter. *)
Theorem first_bounce_right (window : Window) :
  Sizes.RECT_WIDTH < Sizes.CANVAS_WIDTH window ->
  let k := first_right_bounce window in
  (forall m, (m <= k)%nat ->
     FlyingRectangle.x (after_updates window m) =
       Sizes.rectCenterX window + 2 * Z.of_nat m /\
     FlyingRectangle.xDir (after_updates window m) = 1) /\
  (forall m, (m < k)%nat -> ~ atRight window (after_updates window m)) /\
  atRight window (after_updates window k) /\
  FlyingRectangle.xDir (after_updates window (S k)) = Directions.LEFT /\
  FlyingRectangle.x (after_updates window (S k)) =
    FlyingRectangle.x (after_updates window k) - 2 /\
  FlyingRectangle.colorIndex (after_updates window k) <
    FlyingRectangle.colorIndex (after_updates window (S k)).
Proof.
  unfold Sizes.CANVAS_WIDTH, Sizes.RECT_WIDTH. intros HW. cbv zeta.
  pose proof (new_position window) as [Px _].
  change (FlyingRectangle.x (FlyingRectangle.new window))
    with (Sizes.rectCenterX window) in Px.
  set (D := innerWidth window - 128 - Sizes.rectCenterX window + 1).
  assert (K : Z.of_nat (first_right_bounce window) = D / 2).
  { unfold first_right_bounce, Sizes.CANVAS_WIDTH, Sizes.RECT_WIDTH. fold D.
    apply Z2Nat.id. apply Z.div_pos; lia. }
  pose proof (Z.div_mod D 2 ltac:(lia)) as ED.
  pose proof (Z.mod_pos_bound D 2 ltac:(lia)) as BD.
  assert (R : forall m, (m <= first_right_bounce window)%nat ->
              FlyingRectangle.x (after_updates window m) =
                Sizes.rectCenterX window + 2 * Z.of_nat m /\
              FlyingRectangle.xDir (after_updates window m) = 1).
  { intros m Hm. apply moving_right. lia. }
  destruct (R (first_right_bounce window) (le_n _)) as [Rx Rd].
  split; [exact R |].
  split.
  { intros m Hm. destruct (R m ltac:(lia)) as [Mx _].
    unfold atRight, Sizes.CANVAS_WIDTH, Sizes.RECT_WIDTH. lia. }
  assert (A : FlyingRectangle.x (after_updates window (first_right_bounce window)) + 128
              >= innerWidth window) by lia.
  split; [exact A |].
  rewrite after_updates_succ, update_colorIndex.
  destruct (update_axes window (after_updates window (first_right_bounce window))
              (after_updates_speed window _)) as (-> & -> & _).
  unfold advances, xDir_after, Sizes.CANVAS_WIDTH, Sizes.RECT_WIDTH,
    Directions.LEFT, Directions.RIGHT.
  destruct (Z.leb_spec (FlyingRectangle.x
              (after_updates window (first_right_bounce window))) 0); [lia |].
  destruct (Z.geb_spec (FlyingRectangle.x
              (after_updates window (first_right_bounce window)) + 128)
              (innerWidth window)); [| lia].
  repeat split; try lia.
  destruct (_ >=? _), (_ <=? _); lia.
Qed.

Lemma first_bounce_right_witness :
  first_right_bounce window_1000 = 218%nat /\
  atRight window_1000 (after_updates window_1000 218) /\
  FlyingRectangle.xDir (after_updates window_1000 219) = -1.
Proof.
  pose proof (first_bounce_right window_1000 eq_refl) as H.
  cbv zeta in H. destruct H as (_ & _ & A & L & _).
  split; [reflexivity |]. split; [exact A | exact L].
Defined.

(* ===================================================================== *)
(** ** Further properties: the colour                                    *)
(* ===================================================================== *)

Lemma palette_injective (i j : Z) :
  0 <= i < 8 -> 0 <= j < 8 ->
  array_get colors i = array_get colors j -> i = j.
Proof.
  intros Hi Hj.
  assert (I : i = 0 \/ i = 1 \/ i = 2 \/ i = 3 \/ i = 4 \/ i = 5 \/ i = 6 \/ i = 7) by lia.
  assert (J : j = 0 \/ j = 1 \/ j = 2 \/ j = 3 \/ j = 4 \/ j = 5 \/ j = 6 \/ j = 7) by lia.
  clear Hi Hj.
  repeat (destruct I as [-> | I]); try subst i;
    repeat (destruct J as [-> | J]); try subst j;
    intros E; try reflexivity; vm_compute in E; discriminate E.
Qed.

Lemma advances_zero (window : Window) (r : FlyingRectangle.t) :
  advances window r = 0 <-> ~ atEdge window r.
Proof.
  unfold advances, atEdge, atRight, atLeft, atBottom, atTop.
  destruct (Z.geb_spec (FlyingRectangle.x r + Sizes.RECT_WIDTH)
              (Sizes.CANVAS_WIDTH window)),
           (Z.leb_spec (FlyingRectangle.x r) 0),
           (Z.geb_spec (FlyingRectangle.y r + Sizes.RECT_HEIGHT)
              (Sizes.CANVAS_HEIGHT window)),
           (Z.leb_spec (FlyingRectangle.y r) 0); lia.
Qed.

(** X7.  In every state the methods can produce, one [update] changes the
    colour of the rectangle exactly when one of its four tests holds on
    entry: every hit shows, whether it advances the counter once or, in a
    corner, up to four times, and nothing else changes the colour. *)
Theorem color_changes_iff_at_edge (window : Window) (r : FlyingRectangle.t) :
  reachable window r ->
  (FlyingRectangle.color (FlyingRectangle.update window r) <> FlyingRectangle.color r
   <-> atEdge window r).
Proof.
  intros Hr. destruct (reachable_ok window r Hr) as [H0 Hc].
  pose proof (advances_nonneg window r) as A.
  pose proof (advances_zero window r) as Z0.
  rewrite update_eq. cbn [FlyingRectangle.color]. unfold color_after.
  destruct (Z.eqb_spec (advances window r) 0) as [E|E].
  - split; [intros N; now elim N | intros Ed; tauto].
  - split; [intros _ | intros _ Eq].
    + destruct (Z0) as [_ Z1].
      assert (NN : ~ ~ atEdge window r) by (intros N; apply E; tauto).
      unfold atEdge, atRight, atLeft, atBottom, atTop in *. lia.
    + change (Z.of_nat (List.length colors)) with 8 in Eq.
      rewrite Z.rem_mod_nonneg, Hc in Eq by lia.
      apply palette_injective in Eq; try (apply Z.mod_pos_bound; lia).
      pose proof (Z.div_mod (FlyingRectangle.colorIndex r + advances window r) 8
                    ltac:(lia)).
      pose proof (Z.div_mod (FlyingRectangle.colorIndex r) 8 ltac:(lia)).
      lia.
Qed.

Lemma color_changes_iff_at_edge_witness :
  FlyingRectangle.color (FlyingRectangle.update window_100 (FlyingRectangle.new window_100))
    <> FlyingRectangle.color (FlyingRectangle.new window_100).
Proof.
  apply (proj2 (color_changes_iff_at_edge window_100 (FlyingRectangle.new window_100)
                  (reach_new window_100))).
  right. left. unfold atLeft. vm_compute. discriminate.
Defined.

(* ===================================================================== *)
(** ** Further properties: what the screen shows                         *)
(* ===================================================================== *)

Lemma fold_paint_drawn (px py : Z) (entities : list FlyingRectangle.t) :
  forall style below,
    fold_left (paint px py) (drawn_calls style entities) below =
    shown style entities px py below.
Proof.
  induction entities as [|r rest IH]; intros style below; [reflexivity |].
  cbn [drawn_calls shown fold_left paint]. apply IH.
Qed.

Lemma visible_render (window : Window) (app : Application.t) (px py : Z) :
  visible window (Application.context (Application.render window app)) px py =
  if covers 0 0 (innerWidth window) (innerHeight window) px py
  then shown (fillStyle (Application.context app)) (Application.entities app) px py None
  else None.
Proof.
  destruct (render_trace window app) as [_ C].
  rewrite (visible_calls window _
             {| fillStyle := "";
                calls := calls (Application.context app)
                  ++ ClearRect 0 0 (Sizes.CANVAS_WIDTH window) (Sizes.CANVAS_HEIGHT window)
                  :: drawn_calls (fillStyle (Application.context app))
                       (Application.entities app) |} px py C).
  rewrite visible_after_clear. unfold visible. cbn [calls].
  now rewrite fold_paint_drawn.
Qed.

(** X8.  [Application.clear] wipes the surface: whatever was drawn before, no
    pixel shows anything afterwards, and the entities are untouched. *)
Theorem clear_wipes (window : Window) (app : Application.t) (px py : Z) :
  visible window (Application.context (Application.clear window app)) px py = None /\
  Application.entities (Application.clear window app) = Application.entities app.
Proof.
  split; [| reflexivity].
  unfold Application.clear, clearRect, issue. cbn [Application.context].
  rewrite (visible_after_clear window (fillStyle (Application.context app))
             (calls (Application.context app)) [] px py).
  unfold visible. cbn [calls fold_left]. now destruct (covers _ _ _ _ _ _).
Qed.

Lemma shown_last (style : string) (entities : list FlyingRectangle.t)
    (r : FlyingRectangle.t) (c : string) (px py : Z) (below : option string) :
  FlyingRectangle.color r = Some c ->
  shown style (entities ++ [r]) px py below =
  if covers (FlyingRectangle.x r) (FlyingRectangle.y r)
       Sizes.RECT_WIDTH Sizes.RECT_HEIGHT px py
  then Some c
  else shown style entities px py below.
Proof.
  intros Hc. revert style below.
  induction entities as [|e rest IH]; intros style below.
  - cbn [app shown]. now rewrite Hc.
  - cbn [app shown]. apply IH.
Qed.

(** X9.  The entity added last is drawn on top: where its rectangle lies the
    surface shows its colour, elsewhere it shows what the entities before
    it left. *)
Theorem last_entity_on_top (window : Window) (app : Application.t)
    (r : FlyingRectangle.t) (c : string) (px py : Z) :
  FlyingRectangle.color r = Some c ->
  covers 0 0 (innerWidth window) (innerHeight window) px py = true ->
  let app' := {| Application.entities := Application.entities app ++ [r];
                 Application.context := Application.context app |} in
  visible window (Application.context (Application.render window app')) px py =
  if covers (FlyingRectangle.x r) (FlyingRectangle.y r)
       Sizes.RECT_WIDTH Sizes.RECT_HEIGHT px py
  then Some c
  else visible window (Application.context (Application.render window app)) px py.
Proof.
  intros Hc Hin. cbv zeta. rewrite !visible_render, Hin.
  cbn [Application.entities Application.context].
  now apply shown_last.
Qed.

Lemma last_entity_on_top_witness :
  visible window_1000
    (Application.context
       (Application.render window_1000
          {| Application.entities :=
               Application.entities two_rectangles
               ++ [FlyingRectangle.updateColor (rect_at 110 65 1 1)];
             Application.context := Application.context two_rectangles |}))
    120 70 = Some "green" /\
  visible window_1000
    (Application.context (Application.render window_1000 two_rectangles))
    120 70 = Some "red".
Proof.
  rewrite (last_entity_on_top window_1000 two_rectangles
             (FlyingRectangle.updateColor (rect_at 110 65 1 1)) "green"
             120 70 eq_refl eq_refl).
  split; reflexivity.
Defined.

Lemma frame_entities (window : Window) (app : Application.t) :
  Application.entities (Application.frame window app) =
    map (FlyingRectangle.update window) (Application.entities app).
Proof.
  unfold Application.frame.
  destruct (render_trace window (Application.update window app)) as [-> _].
  reflexivity.
Qed.

(** X10.  One frame updates every entity once and then draws the updated
    states: the calls it adds are a clear of the whole surface followed by
    the calls of the entities as [update] left them, in collection order.
    Over any number of frames every entity has been updated once per
    frame, and the collection keeps its length and order. *)
Theorem frame_updates_then_draws (window : Window) (app : Application.t) (n : nat) :
  let updated := map (FlyingRectangle.update window) (Application.entities app) in
  Application.entities (Application.frame window app) = updated /\
  calls (Application.context (Application.frame window app)) =
    calls (Application.context app)
    ++ ClearRect 0 0 (Sizes.CANVAS_WIDTH window) (Sizes.CANVAS_HEIGHT window)
    :: drawn_calls (fillStyle (Application.context app)) updated /\
  Application.entities (Nat.iter n (Application.frame window) app) =
    map (Nat.iter n (FlyingRectangle.update window)) (Application.entities app).
Proof.
  cbv zeta. split; [apply frame_entities |]. split.
  - unfold Application.frame.
    destruct (render_trace window (Application.update window app)) as [_ ->].
    reflexivity.
  - induction n as [|n IH].
    + cbn [Nat.iter]. now rewrite map_id.
    + rewrite Nat.iter_succ, frame_entities, IH, map_map.
      apply map_ext. intros r. now rewrite Nat.iter_succ.
Qed.

(** X11.  What the running application shows.  After [setup] and any positive
    number of frames the application holds the one rectangle, updated once
    per frame, and the surface shows that rectangle, in its colour, at its
    position, and nothing else. *)
Theorem screen_after_frames (window : Window) (context : RenderContext)
    (n : nat) (px py : Z) :
  let r := after_updates window (S n) in
  let app := running window context (S n) in
  Application.entities app = [r] /\
  palette_colored r /\
  visible window (Application.context app) px py =
    if covers 0 0 (innerWidth window) (innerHeight window) px py
       && covers (FlyingRectangle.x r) (FlyingRectangle.y r)
            Sizes.RECT_WIDTH Sizes.RECT_HEIGHT px py
    then FlyingRectangle.color r
    else None.
Proof.
  cbv zeta. unfold running.
  assert (P : palette_colored (after_updates window (S n))).
  { apply color_ok_palette, (reachable_ok window), after_updates_reachable. }
  split; [apply run_entities |]. split; [exact P |].
  change (Application.run window (S n) (Application.new context))
    with (Application.frame window (Application.run window n (Application.new context))).
  unfold Application.frame. rewrite visible_render.
  change (Application.entities
            (Application.update window
               (Application.run window n (Application.new context))))
    with (map (FlyingRectangle.update window)
            (Application.entities (Application.run window n (Application.new context)))).
  rewrite run_entities. cbn [map shown].
  change (FlyingRectangle.update window (after_updates window n))
    with (after_updates window (S n)).
  unfold palette_colored in P. apply in_map_iff in P as (c & Hc & _).
  rewrite <- Hc.
  destruct (covers 0 0 _ _ _ _); [| reflexivity].
  cbn [andb]. reflexivity.
Qed.

(** X12.  With a mounting element and a context to be had, the script mounts one
    canvas of the size of the window as the last child of the element,
    keeping the children it had, and runs the application on that context:
    after any number of frames it holds the one rectangle, updated once
    per frame. *)
Theorem main_mounts_and_runs (window : Window)
    (getContext : HTMLCanvasElement -> option RenderContext)
    (frames : nat) (root : Element) (context : RenderContext) :
  getContext (Application.canvas window) = Some context ->
  main window getContext frames (Some root) =
    (Some {| childNodes := childNodes root ++ [CanvasNode (Application.canvas window)] |},
     inr (running window context frames)) /\
  Application.entities (running window context frames) =
    [after_updates window frames] /\
  width (Application.canvas window) = innerWidth window /\
  height (Application.canvas window) = innerHeight window.
Proof.
  intros G. split; [| split; [apply run_entities | split; reflexivity]].
  unfold main, startup, Application.create, bind, appendChild, ret, running.
  rewrite G. reflexivity.
Qed.

Lemma main_mounts_and_runs_witness :
  main window_1000 fresh_context 3 (Some empty_root) =
    (Some {| childNodes := [CanvasNode (Application.canvas window_1000)] |},
     inr (running window_1000 blank_context 3)).
Proof.
  apply (main_mounts_and_runs window_1000 fresh_context 3 empty_root blank_context).
  reflexivity.
Defined.

(* ===================================================================== *)
(** ** Further properties: the motion repeats                            *)
(* ===================================================================== *)

Section Axis.

Variables size extent : Z.

Lemma axis_right (k : nat) (q : Z) :
  q + 2 * Z.of_nat k + extent - 2 < size ->
  Nat.iter k (axis_step size extent) (q, 1) = (q + 2 * Z.of_nat k, 1).
Proof.
  induction k as [|k IH]; intros H.
  - change (Nat.iter 0 (axis_step size extent) ?s) with s. f_equal; lia.
  - rewrite Nat.iter_succ, IH by lia.
    unfold axis_step. cbn [fst snd].
    destruct (Z.leb_spec (q + 2 * Z.of_nat k) 0).
    + f_equal; lia.
    + destruct (Z.geb_spec (q + 2 * Z.of_nat k + extent) size); [lia |].
      f_equal; lia.
Qed.

Lemma axis_left (k : nat) (q : Z) :
  q + extent < size ->
  0 < q - 2 * Z.of_nat k + 2 ->
  Nat.iter k (axis_step size extent) (q, -1) = (q - 2 * Z.of_nat k, -1).
Proof.
  intros Hq. induction k as [|k IH]; intros H.
  - change (Nat.iter 0 (axis_step size extent) ?s) with s. f_equal; lia.
  - rewrite Nat.iter_succ, IH by lia.
    unfold axis_step. cbn [fst snd].
    destruct (Z.leb_spec (q - 2 * Z.of_nat k) 0); [lia |].
    destruct (Z.geb_spec (q - 2 * Z.of_nat k + extent) size); [lia |].
    f_equal; lia.
Qed.

(** Started in the middle of a room of at least 2, moving forward, the
    axis runs to the far end, back to the near end and forward to where it
    started, in [axis_period] steps. *)
Lemma axis_round_trip (p : Z) :
  2 * p <= size - extent <= 2 * p + 1 ->
  1 <= p ->
  Nat.iter (axis_period size extent p) (axis_step size extent) (p, 1) = (p, 1).
Proof.
  intros Hc Hp.
  pose proof (Z.div_mod p 2 ltac:(lia)) as Ep.
  pose proof (Z.mod_pos_bound p 2 ltac:(lia)) as Bp.
  pose proof (Z.div_mod (size - extent - p) 2 ltac:(lia)) as Et.
  pose proof (Z.mod_pos_bound (size - extent - p) 2 ltac:(lia)) as Bt.
  unfold axis_period.
  set (a := p mod 2) in *. set (p' := p / 2) in *.
  set (b := (size - extent - p) mod 2) in *. set (t := (size - extent - p) / 2) in *.
  replace (Z.to_nat (size - extent + b + a))
    with (Z.to_nat (p' + a - 1) + (1 + (Z.to_nat (p' + a + t + b - 1)
            + (1 + Z.to_nat (t + b)))))%nat by lia.
  rewrite Nat.iter_add. cbn [Nat.add]. rewrite Nat.iter_succ.
  rewrite Nat.iter_add. cbn [Nat.add]. rewrite Nat.iter_succ.
  (* forward to the far end *)
  rewrite axis_right by lia.
  replace (p + 2 * Z.of_nat (Z.to_nat (t + b))) with (size - extent + b) by lia.
  (* the far end turns it back *)
  replace (axis_step size extent (size - extent + b, 1))
    with (size - extent + b - 2, -1).
  2:{ unfold axis_step. cbn [fst snd].
      destruct (Z.leb_spec (size - extent + b) 0); [lia |].
      destruct (Z.geb_spec (size - extent + b + extent) size); [| lia].
      f_equal; lia. }
  (* back to the near end *)
  rewrite axis_left by lia.
  replace (size - extent + b - 2 - 2 * Z.of_nat (Z.to_nat (p' + a + t + b - 1)))
    with (- a) by lia.
  (* the near end turns it forward *)
  replace (axis_step size extent (- a, -1)) with (2 - a, 1).
  2:{ unfold axis_step. cbn [fst snd].
      destruct (Z.leb_spec (- a) 0); [| lia]. f_equal; lia. }
  (* forward to the start *)
  rewrite axis_right by lia.
  f_equal; lia.
Qed.

Lemma iter_period {A : Type} (f : A -> A) (s : A) (period m n : nat) :
  Nat.iter period f s = s ->
  Nat.iter (n + m * period) f s = Nat.iter n f s.
Proof.
  intros H. rewrite Nat.iter_add. f_equal.
  induction m as [|m IH]; [reflexivity |].
  cbn [Nat.mul]. now rewrite Nat.add_comm, Nat.iter_add, H.
Qed.

End Axis.

Lemma x_orbit (window : Window) (n : nat) :
  (FlyingRectangle.x (after_updates window n),
   FlyingRectangle.xDir (after_updates window n)) =
  Nat.iter n (axis_step (Sizes.CANVAS_WIDTH window) Sizes.RECT_WIDTH)
    (Sizes.rectCenterX window, 1).
Proof.
  induction n as [|n IH]; [reflexivity |].
  rewrite Nat.iter_succ, <- IH, after_updates_succ.
  destruct (update_axes window (after_updates window n)
              (after_updates_speed window n)) as (-> & -> & _).
  reflexivity.
Qed.

Lemma y_orbit (window : Window) (n : nat) :
  (FlyingRectangle.y (after_updates window n),
   FlyingRectangle.yDir (after_updates window n)) =
  Nat.iter n (axis_step (Sizes.CANVAS_HEIGHT window) Sizes.RECT_HEIGHT)
    (Sizes.rectCenterY window, 1).
Proof.
  induction n as [|n IH]; [reflexivity |].
  rewrite Nat.iter_succ, <- IH, after_updates_succ.
  destruct (update_axes window (after_updates window n)
              (after_updates_speed window n)) as (_ & _ & -> & -> & _).
  reflexivity.
Qed.

Lemma x_repeats (window : Window) (n k : nat) :
  Sizes.RECT_WIDTH + 2 <= Sizes.CANVAS_WIDTH window ->
  FlyingRectangle.x (after_updates window (n + k * x_period window)) =
    FlyingRectangle.x (after_updates window n) /\
  FlyingRectangle.xDir (after_updates window (n + k * x_period window)) =
    FlyingRectangle.xDir (after_updates window n).
Proof.
  intros HW.
  pose proof (new_position window) as [Px _].
  change (FlyingRectangle.x (FlyingRectangle.new window))
    with (Sizes.rectCenterX window) in Px.
  unfold Sizes.CANVAS_WIDTH, Sizes.RECT_WIDTH in HW.
  assert (R : Nat.iter (x_period window)
                (axis_step (Sizes.CANVAS_WIDTH window) Sizes.RECT_WIDTH)
                (Sizes.rectCenterX window, 1) = (Sizes.rectCenterX window, 1)).
  { apply axis_round_trip;
      unfold Sizes.CANVAS_WIDTH, Sizes.RECT_WIDTH; lia. }
  pose proof (x_orbit window (n + k * x_period window)) as E.
  rewrite (iter_period _ _ _ k n R), <- x_orbit in E.
  now inversion E.
Qed.

Lemma y_repeats (window : Window) (n k : nat) :
  Sizes.RECT_HEIGHT + 2 <= Sizes.CANVAS_HEIGHT window ->
  FlyingRectangle.y (after_updates window (n + k * y_period window)) =
    FlyingRectangle.y (after_updates window n) /\
  FlyingRectangle.yDir (after_updates window (n + k * y_period window)) =
    FlyingRectangle.yDir (after_updates window n).
Proof.
  intros HH.
  pose proof (new_position window) as [_ Py].
  change (FlyingRectangle.y (FlyingRectangle.new window))
    with (Sizes.rectCenterY window) in Py.
  unfold Sizes.CANVAS_HEIGHT, Sizes.RECT_HEIGHT in HH.
  assert (R : Nat.iter (y_period window)
                (axis_step (Sizes.CANVAS_HEIGHT window) Sizes.RECT_HEIGHT)
                (Sizes.rectCenterY window, 1) = (Sizes.rectCenterY window, 1)).
  { apply axis_round_trip;
      unfold Sizes.CANVAS_HEIGHT, Sizes.RECT_HEIGHT; lia. }
  pose proof (y_orbit window (n + k * y_period window)) as E.
  rewrite (iter_period _ _ _ k n R), <- y_orbit in E.
  now inversion E.
Qed.

(** X13.  The motion repeats.  On a surface at least 2 wider and 2 higher than
    the rectangle, the horizontal position and direction come back every
    [x_period] calls of [update], the vertical ones every [y_period]
    calls, and so position and directions together every
    [x_period * y_period] calls.  [x_period] is [CANVAS_WIDTH - RECT_WIDTH]
    when the rectangle touches both edges exactly, and up to 2 more when
    it overshoots them. *)
Theorem motion_repeats (window : Window) (n m : nat) :
  Sizes.RECT_WIDTH + 2 <= Sizes.CANVAS_WIDTH window ->
  Sizes.RECT_HEIGHT + 2 <= Sizes.CANVAS_HEIGHT window ->
  let same_x (r r' : FlyingRectangle.t) :=
    FlyingRectangle.x r' = FlyingRectangle.x r /\
    FlyingRectangle.xDir r' = FlyingRectangle.xDir r in
  let same_y (r r' : FlyingRectangle.t) :=
    FlyingRectangle.y r' = FlyingRectangle.y r /\
    FlyingRectangle.yDir r' = FlyingRectangle.yDir r in
  same_x (after_updates window n) (after_updates window (n + m * x_period window)) /\
  same_y (after_updates window n) (after_updates window (n + m * y_period window)) /\
  same_x (after_updates window n)
    (after_updates window (n + m * (x_period window * y_period window))) /\
  same_y (after_updates window n)
    (after_updates window (n + m * (x_period window * y_period window))) /\
  Sizes.CANVAS_WIDTH window - Sizes.RECT_WIDTH <= Z.of_nat (x_period window)
    <= Sizes.CANVAS_WIDTH window - Sizes.RECT_WIDTH + 2 /\
  Sizes.CANVAS_HEIGHT window - Sizes.RECT_HEIGHT <= Z.of_nat (y_period window)
    <= Sizes.CANVAS_HEIGHT window - Sizes.RECT_HEIGHT + 2.
Proof.
  intros HW HH. cbv zeta.
  split; [now apply x_repeats |]. split; [now apply y_repeats |].
  split.
  { replace (m * (x_period window * y_period window))%nat
      with (m * y_period window * x_period window)%nat by lia.
    now apply x_repeats. }
  split.
  { replace (m * (x_period window * y_period window))%nat
      with (m * x_period window * y_period window)%nat by lia.
    now apply y_repeats. }
  unfold x_period, y_period, axis_period, Sizes.CANVAS_WIDTH, Sizes.CANVAS_HEIGHT,
    Sizes.RECT_WIDTH, Sizes.RECT_HEIGHT in *.
  pose proof (Z.mod_pos_bound (Sizes.rectCenterX window) 2 ltac:(lia)).
  pose proof (Z.mod_pos_bound (innerWidth window - 128 - Sizes.rectCenterX window) 2
                ltac:(lia)).
  pose proof (Z.mod_pos_bound (Sizes.rectCenterY window) 2 ltac:(lia)).
  pose proof (Z.mod_pos_bound (innerHeight window - 72 - Sizes.rectCenterY window) 2
                ltac:(lia)).
  lia.
Qed.

Lemma motion_repeats_witness :
  x_period window_1000 = 872%nat /\
  y_period window_1000 = 728%nat /\
  FlyingRectangle.x (after_updates window_1000 (5 + 1 * 872)) =
    FlyingRectangle.x (after_updates window_1000 5) /\
  FlyingRectangle.y (after_updates window_1000 (5 + 1 * 728)) =
    FlyingRectangle.y (after_updates window_1000 5).
Proof.
  pose proof (motion_repeats window_1000 5 1 ltac:(vm_compute; discriminate)
                ltac:(vm_compute; discriminate)) as H.
  cbv zeta in H. destruct H as ((Hx & _) & (Hy & _) & _).
  split; [reflexivity |]. split; [reflexivity |].
  split; [exact Hx | exact Hy].
Defined.

Lemma colorIndex_shift (window : Window) (q : nat) :
  (forall n,
     FlyingRectangle.x (after_updates window (n + q)) =
       FlyingRectangle.x (after_updates window n) /\
     FlyingRectangle.y (after_updates window (n + q)) =
       FlyingRectangle.y (after_updates window n)) ->
  forall j n,
    FlyingRectangle.colorIndex (after_updates window (n + j * q)) =
    FlyingRectangle.colorIndex (after_updates window n)
    + Z.of_nat j * FlyingRectangle.colorIndex (after_updates window q).
Proof.
  intros Hq.
  assert (S1 : forall n,
             FlyingRectangle.colorIndex (after_updates window (n + q)) =
             FlyingRectangle.colorIndex (after_updates window n)
             + FlyingRectangle.colorIndex (after_updates window q)).
  { induction n as [|n IH].
    - change (FlyingRectangle.colorIndex (after_updates window 0)) with 0.
      cbn [Nat.add]. lia.
    - change (S n + q)%nat with (S (n + q)).
      rewrite !after_updates_succ, !update_colorIndex, IH.
      destruct (Hq n) as [Ex Ey].
      unfold advances. rewrite Ex, Ey. lia. }
  induction j as [|j IH]; intros n.
  - cbn [Nat.mul]. rewrite Nat.add_0_r. lia.
  - replace (n + S j * q)%nat with (n + j * q + q)%nat by lia.
    rewrite S1, IH. lia.
Qed.

(** X14.  The animation repeats.  On a surface at least 2 wider and 2 higher
    than the rectangle, after [animation_period] calls of [update] the
    rectangle is where it was, moving the same way, in the same colour, so
    that [render] draws exactly what it drew then; only the colour counter
    has grown, by a multiple of 8. *)
Theorem animation_repeats (window : Window) (n : nat) (context : RenderContext) :
  Sizes.RECT_WIDTH + 2 <= Sizes.CANVAS_WIDTH window ->
  Sizes.RECT_HEIGHT + 2 <= Sizes.CANVAS_HEIGHT window ->
  let r := after_updates window n in
  let r' := after_updates window (n + animation_period window) in
  FlyingRectangle.x r' = FlyingRectangle.x r /\
  FlyingRectangle.y r' = FlyingRectangle.y r /\
  FlyingRectangle.xDir r' = FlyingRectangle.xDir r /\
  FlyingRectangle.yDir r' = FlyingRectangle.yDir r /\
  FlyingRectangle.color r' = FlyingRectangle.color r /\
  snd (FlyingRectangle.render context r') = snd (FlyingRectangle.render context r) /\
  (FlyingRectangle.colorIndex r' - FlyingRectangle.colorIndex r) mod 8 = 0.
Proof.
  intros HW HH. cbv zeta.
  set (Q := (x_period window * y_period window)%nat).
  assert (HQ : forall k,
             (FlyingRectangle.x (after_updates window (k + Q)) =
                FlyingRectangle.x (after_updates window k) /\
              FlyingRectangle.xDir (after_updates window (k + Q)) =
                FlyingRectangle.xDir (after_updates window k)) /\
             (FlyingRectangle.y (after_updates window (k + Q)) =
                FlyingRectangle.y (after_updates window k) /\
              FlyingRectangle.yDir (after_updates window (k + Q)) =
                FlyingRectangle.yDir (after_updates window k))).
  { intros k. split.
    - replace (k + Q)%nat with (k + y_period window * x_period window)%nat
        by (unfold Q; lia).
      now apply x_repeats.
    - now apply y_repeats. }
  assert (X8 : FlyingRectangle.x (after_updates window (n + animation_period window)) =
                 FlyingRectangle.x (after_updates window n) /\
               FlyingRectangle.xDir (after_updates window (n + animation_period window)) =
                 FlyingRectangle.xDir (after_updates window n)).
  { replace (n + animation_period window)%nat
      with (n + 8 * y_period window * x_period window)%nat
      by (unfold animation_period; lia).
    now apply x_repeats. }
  assert (Y8 : FlyingRectangle.y (after_updates window (n + animation_period window)) =
                 FlyingRectangle.y (after_updates window n) /\
               FlyingRectangle.yDir (after_updates window (n + animation_period window)) =
                 FlyingRectangle.yDir (after_updates window n)).
  { replace (n + animation_period window)%nat
      with (n + 8 * x_period window * y_period window)%nat
      by (unfold animation_period; lia).
    now apply y_repeats. }
  assert (C8 : FlyingRectangle.colorIndex (after_updates window (n + animation_period window)) =
               FlyingRectangle.colorIndex (after_updates window n)
               + FlyingRectangle.colorIndex (after_updates window Q) * 8).
  { unfold animation_period. fold Q.
    rewrite (colorIndex_shift window Q) by (intros k; destruct (HQ k); tauto).
    change (Z.of_nat 8) with 8. lia. }
  assert (Col : FlyingRectangle.color (after_updates window (n + animation_period window)) =
                FlyingRectangle.color (after_updates window n)).
  { destruct (reachable_ok window _ (after_updates_reachable window n)) as [_ ->].
    destruct (reachable_ok window _
                (after_updates_reachable window (n + animation_period window)))
      as [_ ->].
    rewrite C8. now rewrite Z.mod_add by lia. }
  destruct X8 as [Ex Ed], Y8 as [Ey Eyd].
  repeat split; try assumption.
  - rewrite !rect_render. cbv zeta. cbn [snd]. now rewrite Ex, Ey, Col.
  - rewrite C8.
    replace (FlyingRectangle.colorIndex (after_updates window n)
             + FlyingRectangle.colorIndex (after_updates window Q) * 8
             - FlyingRectangle.colorIndex (after_updates window n))
      with (0 + FlyingRectangle.colorIndex (after_updates window Q) * 8) by lia.
    now rewrite Z.mod_add by lia.
Qed.

Lemma animation_repeats_witness :
  animation_period window_130 = 128%nat /\
  FlyingRectangle.color (after_updates window_130 (3 + animation_period window_130)) =
    FlyingRectangle.color (after_updates window_130 3) /\
  FlyingRectangle.x (after_updates window_130 (3 + animation_period window_130)) =
    FlyingRectangle.x (after_updates window_130 3).
Proof.
  pose proof (animation_repeats window_130 3 blank_context
                ltac:(vm_compute; discriminate) ltac:(vm_compute; discriminate)) as H.
  cbv zeta in H. destruct H as (Hx & _ & _ & _ & Hc & _).
  split; [reflexivity |]. split; [exact Hc | exact Hx].
Defined.
